(** * Health-state machine and process supervision of waf_monitor

    Shallow embedding of [waf_monitor/monitor.py] (URLMonitor) and
    [waf_monitor/watchdog.py] (ProcessInfo, Watchdog). *)

From Stdlib Require Import ZArith Ascii String.
From stdpp Require Import base gmap strings list.

Open Scope Z_scope.

(** Python's [a in b] on strings. *)
Definition py_str_in (needle hay : string) : bool :=
  match String.index 0 needle hay with Some _ => true | None => false end.

(** Python's [a % b] on ints: floor modulo, [ZeroDivisionError] when [b = 0].
    [Z.modulo] takes the sign of the divisor, as Python does. *)
Definition py_mod (a b : Z) : option Z :=
  if Z.eqb b 0 then None else Some (Z.modulo a b).

(** * URLMonitor (waf_monitor/monitor.py) *)
Module URLMonitor.

(** One entry of [self.url_health]: [{'count': int, 'alerted': bool}]. *)
Record url_state := mk_url_state { count : Z; alerted : bool }.

Definition zero_state : url_state := mk_url_state 0 false.

(** Exceptions that can leave the locked regions of [check_health]. *)
Inductive exn := KeyError | ZeroDivisionError.

(** What [requests.get(url, timeout=...)] yields: a response with its
    status code and [response.elapsed] (in microseconds), or an exception. *)
Inductive outcome :=
| Response (status_code : Z) (response_time : Z)
| Raised (error : string).

(** Observable effects, in program order.  [Mutate url s] is a write of
    [self.url_health[url]] (inside the lock), [Log] a logger call,
    [Alert] a call of [self.alerter.send_alert(message, level, alert_type)].
    [send_alert] returns a bool and never raises: every concrete sender
    catches its own transport errors. *)
Inductive alert_msg := UrlAlert | RecoveryAlert.

Inductive event :=
| Mutate (url : string) (s : url_state)
| Log (logger level : string)
| Alert (msg : alert_msg) (level alert_type : string).

#[global] Instance url_state_eq_dec : EqDecision url_state.
Proof. solve_decision. Defined.
#[global] Instance alert_msg_eq_dec : EqDecision alert_msg.
Proof. solve_decision. Defined.
#[global] Instance event_eq_dec : EqDecision event.
Proof. solve_decision. Defined.

Definition is_alert (e : event) : bool :=
  match e with Alert _ _ _ => true | _ => false end.

Definition alerts (evs : list event) : list event := List.filter is_alert evs.

(** The locked failure update:
<<
    with self.lock:
        self.url_health[url]['count'] += 1
        need_alert = self.url_health[url]['count'] % self.unhealthy_threshold == 0
        current_count = self.url_health[url]['count']
        if need_alert:
            self.url_health[url]['alerted'] = True
>>
    Returns the new map, the writes done, and either the exception raised
    or [(need_alert, current_count)]. *)
Definition fail_update (thr : Z) (url : string) (m : gmap string url_state)
  : gmap string url_state * list event * (exn + bool * Z) :=
  match m !! url with
  | None => (m, [], inl KeyError)
  | Some s =>
      let c := count s + 1 in
      let s1 := mk_url_state c (alerted s) in
      let m1 := <[url := s1]> m in
      match py_mod c thr with
      | None => (m1, [Mutate url s1], inl ZeroDivisionError)
      | Some r =>
          if Z.eqb r 0 then
            let s2 := mk_url_state c true in
            (<[url := s2]> m, [Mutate url s1; Mutate url s2], inr (true, c))
          else (m1, [Mutate url s1], inr (false, c))
      end
  end.

(** Logging and alerting after a failure, outside the lock. *)
Definition fail_report (need_alert : bool) : list event :=
  [Log "monitor" "warning"; Log "unhealthy" "warning"] ++
  (if need_alert then [Alert UrlAlert "warning" "site"; Log "alert" "warning"]
   else []).

(** The [except Exception] handler of [check_health]: the same update
    again; an exception raised inside it escapes [check_health]. *)
Definition except_path (thr : Z) (url : string) (m : gmap string url_state)
    (before : list event)
  : gmap string url_state * list event * option exn :=
  match fail_update thr url m with
  | (m1, w, inl e) => (m1, before ++ w, Some e)
  | (m1, w, inr (na, _)) => (m1, before ++ w ++ fail_report na, None)
  end.

(** [URLMonitor.check_health(url)], for threshold [thr] and timeout
    [timeout] (same unit as [response_time]).  The result is the new
    [url_health], the effects in order, and the exception escaping the
    method, if any. *)
Definition check_health (thr timeout : Z) (url : string) (o : outcome)
    (m : gmap string url_state)
  : gmap string url_state * list event * option exn :=
  match o with
  | Response sc rt =>
      if negb (Z.eqb sc 200) || Z.ltb timeout rt then
        match fail_update thr url m with
        | (m1, w, inl _) => except_path thr url m1 w
        | (m1, w, inr (na, _)) => (m1, w ++ fail_report na, None)
        end
      else
        match m !! url with
        | None => except_path thr url m []
        | Some s =>
            let was_alerted := alerted s in
            let m1 := <[url := zero_state]> m in
            (m1,
             [Mutate url zero_state; Log "health" "info"] ++
             (if was_alerted then [Alert RecoveryAlert "info" "site"; Log "alert" "info"]
              else []),
             None)
        end
  | Raised _ => except_path thr url m []
  end.

(** A check fails when the status is not 200, the latency exceeds the
    timeout, or the request raised. *)
Definition failing (timeout : Z) (o : outcome) : bool :=
  match o with
  | Response sc rt => negb (Z.eqb sc 200) || Z.ltb timeout rt
  | Raised _ => true
  end.

End URLMonitor.

(** ** Health-state machine: failures and recoveries *)
Module HealthProofs.
Import URLMonitor.

Lemma py_mod_pos (a b : Z) : 1 <= b -> py_mod a b = Some (a mod b).
Proof. intros Hb. unfold py_mod. destruct (Z.eqb_spec b 0); [lia | done]. Qed.

(** The locked failure update on a known URL with a positive threshold. *)
Lemma fail_update_known (thr : Z) (url : string) (m : gmap string url_state) s :
  1 <= thr -> m !! url = Some s ->
  exists w,
    fail_update thr url m =
      (<[url := mk_url_state (count s + 1)
                 (if Z.eqb ((count s + 1) mod thr) 0 then true else alerted s)]> m,
       w, inr (Z.eqb ((count s + 1) mod thr) 0, count s + 1)).
Proof.
  intros Hthr Hs. unfold fail_update. rewrite Hs, py_mod_pos by done.
  destruct (Z.eqb ((count s + 1) mod thr) 0); eauto.
Qed.

Lemma alerts_app (l1 l2 : list event) : alerts (l1 ++ l2) = alerts l1 ++ alerts l2.
Proof. unfold alerts. apply List.filter_app. Qed.

Lemma alerts_fail_report (na : bool) :
  alerts (fail_report na) = if na then [Alert UrlAlert "warning" "site"] else [].
Proof. destruct na; reflexivity. Qed.

Lemma alerts_writes thr url (m : gmap string url_state) m1 w r :
  fail_update thr url m = (m1, w, r) -> alerts w = [].
Proof.
  unfold fail_update. destruct (m !! url) as [s|]; [|intros [= <- <- <-]; done].
  destruct (py_mod (count s + 1) thr) as [z|]; [destruct (Z.eqb z 0)|];
    intros [= <- <- <-]; done.
Qed.

(** C1: on a target present in [url_health] and with [unhealthy_threshold >= 1],
    a failing check (status other than 200, latency over the timeout, or a
    raised exception) increments [count] by one, sets [alerted] exactly when
    the new count is a multiple of the threshold (leaving it unchanged
    otherwise), emits one warning-severity 'site' alert in that case and no
    alert otherwise, and raises nothing. *)
Theorem check_health_failure (thr timeout : Z) (url : string) (o : outcome)
    (m : gmap string url_state) (s : url_state) :
  1 <= thr -> m !! url = Some s -> failing timeout o = true ->
  let c := count s + 1 in
  let need_alert := Z.eqb (c mod thr) 0 in
  let '(m', evs, r) := check_health thr timeout url o m in
  m' = <[url := mk_url_state c (if need_alert then true else alerted s)]> m /\
  alerts evs = (if need_alert then [Alert UrlAlert "warning" "site"] else []) /\
  r = None.
Proof.
  intros Hthr Hs Hf c need_alert.
  destruct (fail_update_known thr url m s Hthr Hs) as [w Hw].
  pose proof (alerts_writes _ _ _ _ _ _ Hw) as Haw.
  destruct o as [sc rt | err]; simpl in Hf |- *.
  - rewrite Hf, Hw. rewrite alerts_app, Haw, alerts_fail_report. done.
  - unfold except_path. rewrite Hw.
    rewrite !alerts_app, Haw, alerts_fail_report. done.
Qed.

(** Witness for C1: threshold 3, a known target at count 2 and a 500 response. *)
Lemma check_health_failure_witness :
  (1 <= 3 /\
   ({[ "http://a.test"%string := mk_url_state 2 false ]} : gmap string url_state)
     !! "http://a.test"%string = Some (mk_url_state 2 false) /\
   failing 5000000 (Response 500 1000) = true) /\
  let c := count (mk_url_state 2 false) + 1 in
  let need_alert := Z.eqb (c mod 3) 0 in
  let '(m', evs, r) :=
    check_health 3 5000000 "http://a.test" (Response 500 1000)
      {[ "http://a.test"%string := mk_url_state 2 false ]} in
  m' = <[ "http://a.test"%string :=
          mk_url_state c (if need_alert then true else alerted (mk_url_state 2 false)) ]>
        ({[ "http://a.test"%string := mk_url_state 2 false ]} : gmap string url_state) /\
  alerts evs = (if need_alert then [Alert UrlAlert "warning" "site"] else []) /\
  r = None.
Proof.
  split; [split; [lia | split; vm_compute; reflexivity]|].
  refine (check_health_failure 3 5000000 "http://a.test" (Response 500 1000)
            {[ "http://a.test"%string := mk_url_state 2 false ]} (mk_url_state 2 false) _ _ _).
  - lia.
  - vm_compute. reflexivity.
  - vm_compute. reflexivity.
Defined.

End HealthProofs.

(** ** Recovery and ordering of effects *)
Module RecoveryProofs.
Import URLMonitor HealthProofs.

Fixpoint first_index (e : event) (evs : list event) : option nat :=
  match evs with
  | [] => None
  | e' :: rest =>
      if decide (e' = e) then Some 0%nat
      else option_map S (first_index e rest)
  end.

(** [a] is emitted, and before any occurrence of [b] (or [b] never occurs). *)
Definition occurs_before (a b : event) (evs : list event) : bool :=
  match first_index a evs, first_index b evs with
  | Some i, Some j => Nat.ltb i j
  | Some _, None => true
  | None, _ => false
  end.

Definition recovery_event : event := Alert RecoveryAlert "info" "site".

(** C2 (amended): on a target present in [url_health], a successful check
    emits exactly one info-severity 'site' recovery notification iff
    [alerted] was true at the start of the check, and none otherwise; the
    state becomes [count = 0], [alerted = false]; and the notification is
    emitted only after that cleared state has been written (the write is in
    the locked region, the alert is sent after it). *)
Theorem check_health_success (thr timeout : Z) (url : string) (o : outcome)
    (m : gmap string url_state) (s : url_state) :
  m !! url = Some s -> failing timeout o = false ->
  let '(m', evs, r) := check_health thr timeout url o m in
  m' = <[url := zero_state]> m /\
  alerts evs = (if alerted s then [recovery_event] else []) /\
  r = None /\
  (alerted s = true ->
   occurs_before (Mutate url zero_state) recovery_event evs = true /\
   occurs_before recovery_event (Mutate url zero_state) evs = false).
Proof.
  intros Hs Hf. destruct o as [sc rt | err]; simpl in Hf; [|discriminate].
  simpl. rewrite Hf, Hs.
  destruct (alerted s) eqn:Ha; repeat split; try done.
  - unfold occurs_before. simpl. repeat (case_decide; simplify_eq/=); done.
  - unfold occurs_before. simpl. repeat (case_decide; simplify_eq/=); done.
Qed.

(** Witness for C2: a known target with [alerted = True] and a 200 response. *)
Lemma check_health_success_witness :
  (({[ "http://a.test"%string := mk_url_state 3 true ]} : gmap string url_state)
     !! "http://a.test"%string = Some (mk_url_state 3 true) /\
   failing 5000000 (Response 200 1000) = false) /\
  let '(m', evs, r) :=
    check_health 3 5000000 "http://a.test" (Response 200 1000)
      {[ "http://a.test"%string := mk_url_state 3 true ]} in
  m' = <[ "http://a.test"%string := zero_state ]>
        ({[ "http://a.test"%string := mk_url_state 3 true ]} : gmap string url_state) /\
  alerts evs = (if alerted (mk_url_state 3 true) then [recovery_event] else []) /\
  r = None /\
  (alerted (mk_url_state 3 true) = true ->
   occurs_before (Mutate "http://a.test" zero_state) recovery_event evs = true /\
   occurs_before recovery_event (Mutate "http://a.test" zero_state) evs = false).
Proof.
  split; [split; vm_compute; reflexivity|].
  refine (check_health_success 3 5000000 "http://a.test" (Response 200 1000)
            {[ "http://a.test"%string := mk_url_state 3 true ]} (mk_url_state 3 true) _ _).
  - vm_compute. reflexivity.
  - vm_compute. reflexivity.
Defined.

(** The claim's ordering: the recovery notification is emitted before the
    cleared state is written. *)
Definition emitted_before_clear (url : string) (evs : list event) : bool :=
  occurs_before recovery_event (Mutate url zero_state) evs.

(** C2 counterexample: a target with [{'count': 3, 'alerted': True}] and a
    200 response within the timeout; the cleared state is written before the
    recovery notification is sent. *)
Lemma check_health_recovery_after_clear :
  let '(_, evs, _) :=
    check_health 3 5000000 "http://a.test"%string (Response 200 1000)
      {[ "http://a.test"%string := mk_url_state 3 true ]} in
  alerts evs = [recovery_event] /\
  emitted_before_clear "http://a.test" evs = false.
Proof. vm_compute. split; reflexivity. Qed.

End RecoveryProofs.

(** ** Configuration reload and a zero threshold *)
Module ThresholdProofs.
Import URLMonitor.

(** [utils.merge_configs(global_config, group_config)]: a copy of the global
    map updated with the group map (the group wins); numeric keys only. *)
Definition merge_configs (global_config group_config : gmap string Z) : gmap string Z :=
  group_config ∪ global_config.

(** [self.unhealthy_threshold = config.get('unhealthy_threshold', 3)] in the
    configuration reload of [monitor_urls]: the value is taken as it is. *)
Definition reload_threshold (config : gmap string Z) : Z :=
  match config !! "unhealthy_threshold" with Some v => v | None => 3 end.

(** C6 counterexample: a group configuration with [unhealthy_threshold = 0]
    passes the reload, and the next failing check on a known target raises
    [ZeroDivisionError] out of [check_health]. *)
Lemma zero_threshold_not_rejected :
  let thr := reload_threshold (merge_configs ∅ {[ "unhealthy_threshold"%string := 0 ]}) in
  thr = 0 /\
  (check_health thr 5000000 "http://a.test" (Response 500 1000)
     {[ "http://a.test"%string := zero_state ]}).2 = Some ZeroDivisionError.
Proof. vm_compute. split; reflexivity. Qed.

(** C6 (amended): the reload accepts a threshold of 0 from the group
    configuration without validation, and then every failing check on a known
    target raises [ZeroDivisionError] out of [check_health]; its count has
    been incremented twice for a bad response (failure branch, then the
    exception handler) and once for a raised request. *)
Theorem zero_threshold_failing_check (global_config group_config : gmap string Z)
    (timeout : Z) (url : string) (o : outcome) (m : gmap string url_state) (s : url_state) :
  group_config !! "unhealthy_threshold" = Some 0 ->
  m !! url = Some s -> failing timeout o = true ->
  let thr := reload_threshold (merge_configs global_config group_config) in
  thr = 0 /\
  let '(m', _, r) := check_health thr timeout url o m in
  r = Some ZeroDivisionError /\
  m' !! url = Some (mk_url_state (count s + match o with Response _ _ => 2 | Raised _ => 1 end)
                      (alerted s)).
Proof.
  intros Hg Hs Hf thr.
  assert (Hthr : thr = 0).
  { unfold thr, reload_threshold, merge_configs.
    rewrite (lookup_union_Some_l _ _ _ _ Hg). done. }
  split; [done|]. rewrite Hthr.
  destruct o as [sc rt | err]; simpl in Hf |- *.
  - rewrite Hf. unfold fail_update. rewrite Hs. simpl.
    unfold except_path, fail_update. rewrite lookup_insert_eq. simpl.
    split; [done|]. rewrite insert_insert_eq, lookup_insert_eq.
    do 2 f_equal. lia.
  - unfold except_path, fail_update. rewrite Hs. simpl.
    split; [done|]. rewrite lookup_insert_eq. done.
Qed.

(** Witness for C6: an empty global configuration, a group configuration with
    [unhealthy_threshold = 0] and a 500 response on a known target. *)
Lemma zero_threshold_failing_check_witness :
  ((({[ "unhealthy_threshold"%string := 0 ]} : gmap string Z) !! "unhealthy_threshold"%string
      = Some 0) /\
   ({[ "http://a.test"%string := zero_state ]} : gmap string url_state)
     !! "http://a.test"%string = Some zero_state /\
   failing 5000000 (Response 500 1000) = true) /\
  let thr := reload_threshold (merge_configs ∅ {[ "unhealthy_threshold"%string := 0 ]}) in
  thr = 0 /\
  let '(m', _, r) := check_health thr 5000000 "http://a.test" (Response 500 1000)
                       {[ "http://a.test"%string := zero_state ]} in
  r = Some ZeroDivisionError /\
  m' !! "http://a.test"%string =
    Some (mk_url_state (count zero_state + 2) (alerted zero_state)).
Proof.
  split; [split; [vm_compute; reflexivity | split; vm_compute; reflexivity]|].
  refine (zero_threshold_failing_check ∅ {[ "unhealthy_threshold"%string := 0 ]} 5000000
            "http://a.test" (Response 500 1000) {[ "http://a.test"%string := zero_state ]}
            zero_state _ _ _).
  - vm_compute. reflexivity.
  - vm_compute. reflexivity.
  - vm_compute. reflexivity.
Defined.

End ThresholdProofs.

(** ** Reconciliation of [url_health] with the target list *)
Module Reconcile.
Import URLMonitor.

(** One insertion step of
<<
    for url in urls:
        if url not in self.url_health:
            self.url_health[url] = {'count': 0, 'alerted': False}
>> *)
Definition add_new (acc : gmap string url_state) (url : string) : gmap string url_state :=
  match acc !! url with
  | Some _ => acc
  | None => <[url := zero_state]> acc
  end.

(** The locked reconciliation of [monitor_urls]: drop the URLs no longer
    listed, then add the new ones with zero counters. *)
Definition reconcile (urls : list string) (m : gmap string url_state) : gmap string url_state :=
  foldl add_new (filter (fun kv : string * url_state => kv.1 ∈ urls) m) urls.

(** The store after the reconciliation phase of one cycle: with an empty
    target list the loop body sleeps and [continue]s before reconciling. *)
Definition cycle_store (urls : list string) (m : gmap string url_state) : gmap string url_state :=
  match urls with
  | [] => m
  | _ :: _ => reconcile urls m
  end.

Lemma foldl_add_new_lookup (l : list string) (acc : gmap string url_state) (u : string) :
  foldl add_new acc l !! u =
    match acc !! u with
    | Some s => Some s
    | None => if decide (u ∈ l) then Some zero_state else None
    end.
Proof.
  revert acc. induction l as [|a l IH]; intros acc; cbn [foldl].
  - destruct (acc !! u); [done|]. case_decide; [set_solver|done].
  - rewrite IH. unfold add_new.
    destruct (acc !! a) as [sa|] eqn:Ha.
    + destruct (acc !! u) as [su|] eqn:Hu; [done|].
      destruct (decide (u = a)) as [->|Hne]; [congruence|].
      repeat case_decide; set_solver.
    + destruct (decide (u = a)) as [->|Hne].
      * rewrite lookup_insert_eq, Ha. repeat case_decide; first [done | set_solver].
      * rewrite lookup_insert_ne by congruence.
        destruct (acc !! u); [done|].
        repeat case_decide; set_solver.
Qed.

Lemma reconcile_lookup (urls : list string) (m : gmap string url_state) (u : string) :
  reconcile urls m !! u =
    if decide (u ∈ urls) then Some (default zero_state (m !! u)) else None.
Proof.
  unfold reconcile. rewrite foldl_add_new_lookup, map_lookup_filter.
  destruct (m !! u) as [s|]; simpl; repeat case_decide; simplify_eq/=; done.
Qed.

Lemma reconcile_dom (urls : list string) (m : gmap string url_state) :
  dom (reconcile urls m) = list_to_set urls.
Proof.
  apply set_eq. intros u. rewrite elem_of_dom, elem_of_list_to_set, reconcile_lookup.
  destruct (decide (u ∈ urls)); split; intros H; try done.
Qed.

(** C7 (amended): in a cycle whose loaded target list is non-empty, the store
    after reconciliation has exactly the listed URLs as keys; a listed URL
    keeps its entry if it had one and gets [{count: 0, alerted: false}]
    otherwise (so a URL re-added after its removal starts at zero).  A cycle
    whose target list is empty (or whose target file failed to load) skips
    the reconciliation and leaves the store unchanged. *)
Theorem cycle_store_keys (urls : list string) (m : gmap string url_state) :
  (urls <> [] ->
   dom (cycle_store urls m) = list_to_set urls /\
   forall u, u ∈ urls ->
     cycle_store urls m !! u = Some (default zero_state (m !! u))) /\
  (urls = [] -> cycle_store urls m = m).
Proof.
  split.
  - intros Hne. destruct urls as [|a l]; [done|]. simpl cycle_store.
    split; [apply reconcile_dom|].
    intros u Hu. rewrite reconcile_lookup, decide_True by done. done.
  - intros ->. done.
Qed.

(** Witness for C7: one target kept and one dropped. *)
Lemma cycle_store_keys_witness :
  ["http://a.test"%string] <> [] /\
  ((["http://a.test"%string] <> [] ->
    dom (cycle_store ["http://a.test"%string]
           {[ "http://b.test"%string := mk_url_state 1 true ]})
      = list_to_set ["http://a.test"%string] /\
    forall u, u ∈ ["http://a.test"%string] ->
      cycle_store ["http://a.test"%string] {[ "http://b.test"%string := mk_url_state 1 true ]} !! u
        = Some (default zero_state
                  (({[ "http://b.test"%string := mk_url_state 1 true ]} : gmap string url_state)
                     !! u))) /\
   (["http://a.test"%string] = [] ->
    cycle_store ["http://a.test"%string] {[ "http://b.test"%string := mk_url_state 1 true ]}
      = {[ "http://b.test"%string := mk_url_state 1 true ]})).
Proof.
  split; [discriminate|].
  exact (cycle_store_keys ["http://a.test"%string] {[ "http://b.test"%string := mk_url_state 1 true ]}).
Defined.

(** C7 counterexample: every target removed from the list (the list loaded
    is empty); the old entry survives the cycle. *)
Lemma cycle_store_empty_list_keeps_entry :
  dom (cycle_store [] {[ "http://a.test"%string := mk_url_state 2 false ]})
    <> list_to_set [].
Proof.
  simpl. rewrite dom_singleton_L. set_solver.
Qed.

End Reconcile.

(** ** The polling loop of [monitor_urls] and its retry counter *)
Module PollLoop.

(** How one iteration of [while self.running:] ends:
    - [CycleCompleted]: the [try] body ran to its end (checks done, state
      saved, [time.sleep(self.monitor_interval)]); the [else] clause resets
      [_retry_count];
    - [CycleNoTargets]: [load_targets()] gave no URL; the body sleeps
      [monitor_interval] and [continue]s, which leaves the [try] without
      running its [else] clause;
    - [CycleRaised]: an exception escaped the body (a check re-raised by
      [future.result()], a failed state save, ...) and was caught by
      [except Exception]. *)
Inductive cycle_result := CycleCompleted | CycleNoTargets | CycleRaised.

(** What happens between two evaluations of the loop condition: one
    iteration, or [stop()] setting [self.running = False]. *)
Inductive loop_input := Cycle (r : cycle_result) | StopRequest.

(** [min(300, 10 * (2 ** (retry_count - 1)))]. *)
Definition backoff_time (retry_count : Z) : Z := Z.min 300 (10 * 2 ^ (retry_count - 1)).

(** The loop, returning the sleeps it performs, in order; [retry] is
    [getattr(self, '_retry_count', 0)]. *)
Fixpoint monitor_loop (interval retry : Z) (ins : list loop_input) : list Z :=
  match ins with
  | [] => []
  | StopRequest :: _ => []
  | Cycle CycleCompleted :: rest => interval :: monitor_loop interval 0 rest
  | Cycle CycleNoTargets :: rest => interval :: monitor_loop interval retry rest
  | Cycle CycleRaised :: rest =>
      let retry_count := retry + 1 in
      backoff_time retry_count :: monitor_loop interval retry_count rest
  end.

(** Iterations requested before the first stop request. *)
Fixpoint cycles_before_stop (ins : list loop_input) : nat :=
  match ins with
  | [] => 0%nat
  | StopRequest :: _ => 0%nat
  | Cycle _ :: rest => S (cycles_before_stop rest)
  end.

Definition no_stop (ins : list loop_input) : Prop := StopRequest ∉ ins.

(** Failed iterations since the last one that ran to completion. *)
Fixpoint failures_since_completed (acc : Z) (ins : list loop_input) : Z :=
  match ins with
  | [] => acc
  | StopRequest :: rest => failures_since_completed acc rest
  | Cycle CycleCompleted :: rest => failures_since_completed 0 rest
  | Cycle CycleNoTargets :: rest => failures_since_completed acc rest
  | Cycle CycleRaised :: rest => failures_since_completed (acc + 1) rest
  end.

(** Trailing run of failed iterations: the claim's "consecutive failed
    cycles" before the next one. *)
Fixpoint leading_raised (ins : list loop_input) : Z :=
  match ins with
  | Cycle CycleRaised :: rest => 1 + leading_raised rest
  | _ => 0
  end.

Definition consecutive_failures (ins : list loop_input) : Z := leading_raised (rev ins).

Lemma monitor_loop_length (interval retry : Z) (ins : list loop_input) :
  length (monitor_loop interval retry ins) = cycles_before_stop ins.
Proof.
  revert retry. induction ins as [|[[| |]|] rest IH]; intros retry; simpl; auto.
Qed.

Lemma monitor_loop_app (interval retry : Z) (pre post : list loop_input) :
  no_stop pre ->
  monitor_loop interval retry (pre ++ post) =
    monitor_loop interval retry pre ++
    monitor_loop interval (failures_since_completed retry pre) post.
Proof.
  unfold no_stop. revert retry. induction pre as [|[[| |]|] rest IH]; intros retry Hns;
    simpl; try (rewrite IH; [done | set_solver]).
  - done.
  - set_solver.
Qed.

Lemma cycles_before_stop_no_stop (ins : list loop_input) :
  no_stop ins -> cycles_before_stop ins = length ins.
Proof.
  unfold no_stop. induction ins as [|[r|] rest IH]; simpl; intros H; [done| |set_solver].
  rewrite IH; [done|set_solver].
Qed.

(** C8 (amended): the loop performs one sleep per iteration until the first
    stop request, whatever the iterations' outcomes (a failed iteration
    never ends it); an iteration that fails sleeps
    [min(300, 10 * 2 ^ (k - 1))] seconds where [k] counts the failed
    iterations since the last iteration that ran to completion (including
    this one); an iteration that finds no target sleeps [monitor_interval]
    and neither increments nor resets that count; a completed iteration
    resets it to 0. *)
Theorem monitor_loop_backoff (interval : Z) (pre post : list loop_input) :
  length (monitor_loop interval 0 (pre ++ post)) = cycles_before_stop (pre ++ post) /\
  (no_stop pre ->
   (monitor_loop interval 0 (pre ++ Cycle CycleRaised :: post) !! length pre) =
     Some (backoff_time (failures_since_completed 0 pre + 1)) /\
   (monitor_loop interval 0 (pre ++ Cycle CycleNoTargets :: post) !! length pre) =
     Some interval /\
   (monitor_loop interval 0 (pre ++ Cycle CycleCompleted :: Cycle CycleRaised :: post)
     !! S (length pre)) = Some (backoff_time 1)).
Proof.
  split; [apply monitor_loop_length|]. intros Hns.
  assert (Hl : length (monitor_loop interval 0 pre) = length pre).
  { rewrite monitor_loop_length. by apply cycles_before_stop_no_stop. }
  rewrite !monitor_loop_app by done.
  repeat split.
  - rewrite lookup_app_r by lia. rewrite Hl, Nat.sub_diag. done.
  - rewrite lookup_app_r by lia. rewrite Hl, Nat.sub_diag. done.
  - rewrite lookup_app_r by lia. rewrite Hl. replace (S (length pre) - length pre)%nat with 1%nat by lia.
    done.
Qed.

(** Witness for C8: one failed iteration before the one observed. *)
Lemma monitor_loop_backoff_witness :
  no_stop [Cycle CycleRaised] /\
  length (monitor_loop 60 0 ([Cycle CycleRaised] ++ [])) = cycles_before_stop ([Cycle CycleRaised] ++ []) /\
  (no_stop [Cycle CycleRaised] ->
   (monitor_loop 60 0 ([Cycle CycleRaised] ++ Cycle CycleRaised :: []) !! length [Cycle CycleRaised]) =
     Some (backoff_time (failures_since_completed 0 [Cycle CycleRaised] + 1)) /\
   (monitor_loop 60 0 ([Cycle CycleRaised] ++ Cycle CycleNoTargets :: []) !! length [Cycle CycleRaised]) =
     Some 60 /\
   (monitor_loop 60 0 ([Cycle CycleRaised] ++ Cycle CycleCompleted :: Cycle CycleRaised :: [])
     !! S (length [Cycle CycleRaised])) = Some (backoff_time 1)).
Proof.
  split; [unfold no_stop; set_solver|].
  exact (monitor_loop_backoff 60 [Cycle CycleRaised] []).
Defined.

(** C8 counterexample: a failure, an iteration with no target, a failure.
    The third iteration is the only failure of its run of consecutive
    failures, yet it sleeps 20 seconds, not [min(300, 10 * 2 ^ 0) = 10]. *)
Lemma monitor_loop_no_target_keeps_retry :
  let ins := [Cycle CycleRaised; Cycle CycleNoTargets; Cycle CycleRaised] in
  monitor_loop 60 0 ins = [10; 60; 20] /\
  consecutive_failures ins = 1 /\
  backoff_time (consecutive_failures ins) = 10.
Proof. vm_compute. repeat split. Qed.

End PollLoop.

(** * Python's naive [datetime]: arithmetic and ISO-8601 text *)
Module DateTime.

Record datetime := mk_datetime {
  year : Z; month : Z; day : Z;
  hour : Z; minute : Z; second : Z; microsecond : Z }.

Definition is_leap (y : Z) : bool :=
  Z.eqb (y mod 4) 0 && (negb (Z.eqb (y mod 100) 0) || Z.eqb (y mod 400) 0).

Definition days_in_month (y m : Z) : Z :=
  if Z.eqb m 2 then (if is_leap y then 29 else 28)
  else if Z.eqb m 4 || Z.eqb m 6 || Z.eqb m 9 || Z.eqb m 11 then 30
  else 31.

(** [_days_before_month]: the [_DAYS_BEFORE_MONTH] table plus the leap day. *)
Definition days_before_month (y m : Z) : Z :=
  nth (Z.to_nat m) [0; 0; 31; 59; 90; 120; 151; 181; 212; 243; 273; 304; 334] 0 +
  (if Z.ltb 2 m && is_leap y then 1 else 0).

Definition days_before_year (y : Z) : Z :=
  let y' := y - 1 in y' * 365 + y' / 4 - y' / 100 + y' / 400.

(** [_ymd2ord] *)
Definition toordinal (d : datetime) : Z :=
  days_before_year (year d) + days_before_month (year d) (month d) + day d.

(** The constructor's range checks ([ValueError] otherwise). *)
Definition valid_datetime (d : datetime) : bool :=
  (1 <=? year d) && (year d <=? 9999) &&
  (1 <=? month d) && (month d <=? 12) &&
  (1 <=? day d) && (day d <=? days_in_month (year d) (month d)) &&
  (0 <=? hour d) && (hour d <=? 23) &&
  (0 <=? minute d) && (minute d <=? 59) &&
  (0 <=? second d) && (second d <=? 59) &&
  (0 <=? microsecond d) && (microsecond d <=? 999999).

(** Microseconds since the proleptic Gregorian origin. *)
Definition total_micro (d : datetime) : Z :=
  toordinal d * 86400000000 +
  ((hour d * 60 + minute d) * 60 + second d) * 1000000 + microsecond d.

(** [(now - last).total_seconds() < 60]: the timedelta is exact in
    microseconds, and the float division by [10**6] keeps the comparison
    with 60 exact at this magnitude. *)
Definition less_than_60s_ago (now last : datetime) : bool :=
  Z.ltb (total_micro now - total_micro last) 60000000.

Definition digit_char (k : Z) : Ascii.ascii := Ascii.ascii_of_nat (48 + Z.to_nat k).

Definition digit_val (c : Ascii.ascii) : option Z :=
  let k := Ascii.nat_of_ascii c in
  if (48 <=? k)%nat && (k <=? 57)%nat then Some (Z.of_nat k - 48) else None.

(** ['%0<w>d' % n] for [0 <= n < 10 ^ w]. *)
Fixpoint print_digits (w : nat) (n : Z) : string :=
  match w with
  | O => EmptyString
  | S w' => String (digit_char (n / 10 ^ Z.of_nat w')) (print_digits w' (n mod 10 ^ Z.of_nat w'))
  end.

Fixpoint parse_digits (w : nat) (s : string) : option (Z * string) :=
  match w with
  | O => Some (0, s)
  | S w' =>
      match s with
      | EmptyString => None
      | String c s' =>
          match digit_val c, parse_digits w' s' with
          | Some k, Some (v, r) => Some (k * 10 ^ Z.of_nat w' + v, r)
          | _, _ => None
          end
      end
  end.

(** [datetime.isoformat()] of a naive datetime: the fraction is printed
    only when [microsecond] is not 0. *)
Definition isoformat (d : datetime) : string :=
  String.append (print_digits 4 (year d)) (String "-"%char
  (String.append (print_digits 2 (month d)) (String "-"%char
  (String.append (print_digits 2 (day d)) (String "T"%char
  (String.append (print_digits 2 (hour d)) (String ":"%char
  (String.append (print_digits 2 (minute d)) (String ":"%char
  (String.append (print_digits 2 (second d))
    (if Z.eqb (microsecond d) 0 then EmptyString
     else String "."%char (print_digits 6 (microsecond d))))))))))))).

Definition expect (c : Ascii.ascii) (s : string) : option string :=
  match s with
  | String c' s' => if Ascii.eqb c c' then Some s' else None
  | EmptyString => None
  end.

(** [datetime.fromisoformat(s)] on the formats [isoformat] produces
    ([YYYY-MM-DDTHH:MM:SS] with an optional [.ffffff]); [None] is the
    [ValueError]. *)
Definition fromisoformat (s : string) : option datetime :=
  match parse_digits 4 s with None => None | Some (y, s) =>
  match expect "-"%char s with None => None | Some s =>
  match parse_digits 2 s with None => None | Some (mo, s) =>
  match expect "-"%char s with None => None | Some s =>
  match parse_digits 2 s with None => None | Some (dd, s) =>
  match expect "T"%char s with None => None | Some s =>
  match parse_digits 2 s with None => None | Some (hh, s) =>
  match expect ":"%char s with None => None | Some s =>
  match parse_digits 2 s with None => None | Some (mi, s) =>
  match expect ":"%char s with None => None | Some s =>
  match parse_digits 2 s with None => None | Some (ss, s) =>
  let us := match s with
            | EmptyString => Some 0
            | String "."%char s' =>
                match parse_digits 6 s' with
                | Some (v, EmptyString) => Some v
                | _ => None
                end
            | _ => None
            end in
  match us with None => None | Some us =>
  let d := mk_datetime y mo dd hh mi ss us in
  if valid_datetime d then Some d else None
  end end end end end end end end end end end end.

Example isoformat_example :
  isoformat (mk_datetime 2024 3 5 7 8 9 0) = "2024-03-05T07:08:09"%string.
Proof. reflexivity. Qed.

Example isoformat_micro_example :
  isoformat (mk_datetime 2024 3 5 7 8 9 1234) = "2024-03-05T07:08:09.001234"%string.
Proof. reflexivity. Qed.

Example fromisoformat_example :
  fromisoformat "2024-02-29T23:59:59.000001" = Some (mk_datetime 2024 2 29 23 59 59 1).
Proof. reflexivity. Qed.

Example fromisoformat_invalid_day :
  fromisoformat "2023-02-29T00:00:00" = None.
Proof. reflexivity. Qed.

Example toordinal_example : toordinal (mk_datetime 1 1 1 0 0 0 0) = 1.
Proof. reflexivity. Qed.

Example toordinal_2024 : toordinal (mk_datetime 2024 1 1 0 0 0 0) = 738886.
Proof. reflexivity. Qed.

End DateTime.

(** ** [fromisoformat] inverts [isoformat] *)
Module DateTimeProofs.
Import DateTime.

Lemma digit_val_char (k : Z) : 0 <= k < 10 -> digit_val (digit_char k) = Some k.
Proof.
  intros Hk. unfold digit_val, digit_char.
  rewrite Ascii.nat_ascii_embedding by lia.
  replace ((48 <=? 48 + Z.to_nat k)%nat && (48 + Z.to_nat k <=? 57)%nat) with true.
  - f_equal. lia.
  - symmetry. apply andb_true_iff. split; apply Nat.leb_le; lia.
Qed.

Lemma string_append_cons (c : ascii) (s r : string) :
  String.append (String c s) r = String c (String.append s r).
Proof. reflexivity. Qed.

Lemma parse_print_digits (w : nat) (n : Z) (rest : string) :
  0 <= n < 10 ^ Z.of_nat w ->
  parse_digits w (String.append (print_digits w n) rest) = Some (n, rest).
Proof.
  revert n. induction w as [|w IH]; intros n Hn.
  - simpl in *. f_equal. f_equal. lia.
  - set (p := 10 ^ Z.of_nat w).
    assert (Hp : 0 < p) by (apply Z.pow_pos_nonneg; lia).
    assert (Hs : 10 ^ Z.of_nat (S w) = 10 * p)
      by (unfold p; rewrite Nat2Z.inj_succ, Z.pow_succ_r; lia).
    rewrite Hs in Hn.
    assert (Hq : 0 <= n / p < 10).
    { split; [apply Z.div_pos; lia|]. apply Z.div_lt_upper_bound; lia. }
    assert (Hr : 0 <= n mod p < p) by (apply Z.mod_pos_bound; lia).
    cbn [print_digits]. rewrite string_append_cons. cbn [parse_digits]. fold p.
    rewrite digit_val_char by done. rewrite IH by done.
    f_equal. f_equal. pose proof (Z.div_mod n p). nia.
Qed.

Lemma string_append_nil (s : string) : String.append s EmptyString = s.
Proof. induction s as [|c s IH]; [done|]. rewrite string_append_cons, IH. done. Qed.

Theorem fromisoformat_isoformat (d : datetime) :
  valid_datetime d = true -> fromisoformat (isoformat d) = Some d.
Proof.
  intros Hv. pose proof Hv as Hv'.
  destruct d as [y mo dd hh mi ss us]. unfold valid_datetime in Hv'. cbn in Hv'.
  repeat rewrite andb_true_iff in Hv'. rewrite !Z.leb_le in Hv'.
  assert (Hdim : days_in_month y mo <= 31)
    by (unfold days_in_month; repeat case_match; lia).
  unfold isoformat, fromisoformat. cbn [year month day hour minute second microsecond].
  rewrite parse_print_digits by (simpl; lia). cbn [expect Ascii.eqb Bool.eqb].
  rewrite parse_print_digits by (simpl; lia). cbn [expect Ascii.eqb Bool.eqb].
  rewrite parse_print_digits by (simpl; lia). cbn [expect Ascii.eqb Bool.eqb].
  rewrite parse_print_digits by (simpl; lia). cbn [expect Ascii.eqb Bool.eqb].
  rewrite parse_print_digits by (simpl; lia). cbn [expect Ascii.eqb Bool.eqb].
  rewrite parse_print_digits by (simpl; lia).
  destruct (Z.eqb_spec us 0) as [->|Hus].
  - rewrite Hv. reflexivity.
  - rewrite <- (string_append_nil (print_digits 6 us)).
    rewrite parse_print_digits by (simpl; lia). cbv beta iota. rewrite Hv. reflexivity.
Qed.

End DateTimeProofs.

(** * Watchdog (waf_monitor/watchdog.py) *)
Module Watchdog.
Import DateTime.

(** [ProcessInfo]; the two timestamps are attributes that may hold [None]. *)
Record ProcessInfo := mk_ProcessInfo {
  group_name : string;
  pid : option Z;
  status : string;
  restart_count : Z;
  last_check_time : option datetime;
  last_start_time : option datetime;
  was_restarted : bool;
  need_alert : bool }.

(** The status strings the code writes and compares. *)
Definition ST_RUNNING : string := "运行中".
Definition ST_STOPPED : string := "已停止".
Definition ST_MAX_RESTARTS : string := "已停止 - 超过最大重启次数".
Definition ST_MANUAL : string := "已手动停止".
Definition ST_UNKNOWN : string := "未知".
Definition MANUAL_MARK : string := "手动停止".

(** [ProcessInfo.__init__]: [last_check_time or datetime.now()] and the
    same for [last_start_time] ([now] is [datetime.now()]; a datetime is
    always truthy). *)
Definition ProcessInfo_init (now : datetime) (group_name : string) (pid : option Z)
    (status : string) (restart_count : Z) (last_check_time last_start_time : option datetime)
    (was_restarted need_alert : bool) : ProcessInfo :=
  mk_ProcessInfo group_name pid status restart_count
    (Some (default now last_check_time)) (Some (default now last_start_time))
    was_restarted need_alert.

(** [ProcessInfo(group_name, pid)] with the default arguments. *)
Definition ProcessInfo_new (now : datetime) (g : string) (p : option Z) : ProcessInfo :=
  ProcessInfo_init now g p ST_UNKNOWN 0 None None false true.

Definition set_pid (p : option Z) (i : ProcessInfo) : ProcessInfo :=
  mk_ProcessInfo (group_name i) p (status i) (restart_count i) (last_check_time i)
    (last_start_time i) (was_restarted i) (need_alert i).
Definition set_status (s : string) (i : ProcessInfo) : ProcessInfo :=
  mk_ProcessInfo (group_name i) (pid i) s (restart_count i) (last_check_time i)
    (last_start_time i) (was_restarted i) (need_alert i).
Definition set_restart_count (n : Z) (i : ProcessInfo) : ProcessInfo :=
  mk_ProcessInfo (group_name i) (pid i) (status i) n (last_check_time i)
    (last_start_time i) (was_restarted i) (need_alert i).
Definition set_last_check_time (t : datetime) (i : ProcessInfo) : ProcessInfo :=
  mk_ProcessInfo (group_name i) (pid i) (status i) (restart_count i) (Some t)
    (last_start_time i) (was_restarted i) (need_alert i).
Definition set_last_start_time (t : datetime) (i : ProcessInfo) : ProcessInfo :=
  mk_ProcessInfo (group_name i) (pid i) (status i) (restart_count i) (last_check_time i)
    (Some t) (was_restarted i) (need_alert i).
Definition set_was_restarted (b : bool) (i : ProcessInfo) : ProcessInfo :=
  mk_ProcessInfo (group_name i) (pid i) (status i) (restart_count i) (last_check_time i)
    (last_start_time i) b (need_alert i).
Definition set_need_alert (b : bool) (i : ProcessInfo) : ProcessInfo :=
  mk_ProcessInfo (group_name i) (pid i) (status i) (restart_count i) (last_check_time i)
    (last_start_time i) (was_restarted i) b.

(** ** Serialisation *)

(** The Python values [to_dict] produces and [from_dict] reads. *)
Inductive pyval := VNone | VStr (s : string) | VInt (z : Z) | VBool (b : bool).

(** A dict as its list of items, in insertion order. *)
Definition dict := list (string * pyval).

(** [data.get(k)]. *)
Definition dict_get (data : dict) (k : string) : option pyval :=
  match List.find (fun kv => String.eqb kv.1 k) data with
  | Some kv => Some kv.2
  | None => None
  end.

Definition truthy (v : pyval) : bool :=
  match v with
  | VNone => false
  | VStr s => negb (String.eqb s EmptyString)
  | VInt z => negb (Z.eqb z 0)
  | VBool b => b
  end.

Definition iso_or_none (t : option datetime) : pyval :=
  match t with Some d => VStr (isoformat d) | None => VNone end.

(** [ProcessInfo.to_dict]. *)
Definition to_dict (i : ProcessInfo) : dict :=
  [("group_name", VStr (group_name i));
   ("pid", match pid i with Some p => VInt p | None => VNone end);
   ("status", VStr (status i));
   ("restart_count", VInt (restart_count i));
   ("last_check_time", iso_or_none (last_check_time i));
   ("last_start_time", iso_or_none (last_start_time i));
   ("was_restarted", VBool (was_restarted i));
   ("need_alert", VBool (need_alert i))].

Definition as_str (v : pyval) : option string :=
  match v with VStr s => Some s | _ => None end.
Definition as_int (v : pyval) : option Z :=
  match v with VInt z => Some z | _ => None end.
Definition as_bool (v : pyval) : option bool :=
  match v with VBool b => Some b | _ => None end.
Definition as_opt_int (v : pyval) : option (option Z) :=
  match v with VNone => Some None | VInt z => Some (Some z) | _ => None end.

(** [datetime.fromisoformat(data[k]) if data.get(k) else None]; the outer
    [None] is the exception ([ValueError], or [TypeError] on a non-string). *)
Definition time_field (data : dict) (k : string) : option (option datetime) :=
  match dict_get data k with
  | Some v =>
      if truthy v then
        match v with
        | VStr s => match fromisoformat s with Some d => Some (Some d) | None => None end
        | _ => None
        end
      else Some None
  | None => Some None
  end.

(** [data.get(k, default)] for a boolean field. *)
Definition bool_field (data : dict) (k : string) (dflt : bool) : option bool :=
  match dict_get data k with Some v => as_bool v | None => Some dflt end.

(** [ProcessInfo.from_dict(data)]; [None] is an exception ([KeyError] on a
    missing required key, [ValueError] on a bad timestamp) or a value whose
    type the record's field cannot hold. *)
Definition from_dict (now : datetime) (data : dict) : option ProcessInfo :=
  g ← dict_get data "group_name" ≫= as_str;
  p ← dict_get data "pid" ≫= as_opt_int;
  s ← dict_get data "status" ≫= as_str;
  n ← dict_get data "restart_count" ≫= as_int;
  lc ← time_field data "last_check_time";
  ls ← time_field data "last_start_time";
  wr ← bool_field data "was_restarted" false;
  na ← bool_field data "need_alert" true;
  Some (ProcessInfo_init now g p s n lc ls wr na).

End Watchdog.

(** ** [from_dict] inverts [to_dict] *)
Module SerialisationProofs.
Import DateTime DateTimeProofs Watchdog.

Lemma isoformat_truthy (d : datetime) : truthy (VStr (isoformat d)) = true.
Proof. unfold isoformat. cbn [print_digits]. rewrite string_append_cons. reflexivity. Qed.

Lemma time_field_iso (data : dict) (k : string) (d : datetime) :
  valid_datetime d = true -> dict_get data k = Some (VStr (isoformat d)) ->
  time_field data k = Some (Some d).
Proof.
  intros Hv Hg. unfold time_field. rewrite Hg, isoformat_truthy, fromisoformat_isoformat by done.
  done.
Qed.

(** C10: a record whose two timestamps are set (to valid datetimes, as every
    Python [datetime] is) is rebuilt field for field by
    [ProcessInfo.from_dict(r.to_dict())], whatever [datetime.now()] is. *)
Theorem from_dict_to_dict (now : datetime) (r : ProcessInfo) (d1 d2 : datetime) :
  last_check_time r = Some d1 -> last_start_time r = Some d2 ->
  valid_datetime d1 = true -> valid_datetime d2 = true ->
  from_dict now (to_dict r) = Some r.
Proof.
  intros H1 H2 Hv1 Hv2.
  assert (Hlc : time_field (to_dict r) "last_check_time" = Some (Some d1)).
  { apply time_field_iso; [done|]. unfold to_dict. rewrite H1. reflexivity. }
  assert (Hls : time_field (to_dict r) "last_start_time" = Some (Some d2)).
  { apply time_field_iso; [done|]. unfold to_dict. rewrite H2. reflexivity. }
  unfold from_dict. rewrite Hlc, Hls.
  destruct r as [g p s n lc ls wr na]; simpl in H1, H2; subst.
  destruct p; reflexivity.
Qed.

(** Witness for C10: a record with both timestamps set. *)
Lemma from_dict_to_dict_witness :
  let d := mk_datetime 2024 5 1 12 0 0 0 in
  let r := mk_ProcessInfo "group1" (Some 4242) ST_RUNNING 3 (Some d) (Some d) true false in
  (last_check_time r = Some d /\ last_start_time r = Some d /\
   valid_datetime d = true) /\
  from_dict (mk_datetime 2024 5 1 12 0 10 0) (to_dict r) = Some r.
Proof.
  intros d r. split; [split; [reflexivity | split; vm_compute; reflexivity]|].
  refine (from_dict_to_dict (mk_datetime 2024 5 1 12 0 10 0) r d d _ _ _ _).
  - reflexivity.
  - reflexivity.
  - vm_compute. reflexivity.
  - vm_compute. reflexivity.
Defined.

End SerialisationProofs.

(** * Liveness check, restart and the check-all pass *)
Module Supervision.
Import DateTime Watchdog.

(** What psutil reports for a PID: [psutil.Process(pid)] or [cmdline()]
    raising one of the three caught exceptions, or the command line. *)
Inductive proc_entry :=
| NoSuchProcess
| AccessDenied
| ZombieProcess
| Live (cmdline : list string).

(** Outcome of the restart: [subprocess.Popen] raising, or a child whose
    liveness [utils.is_process_running] reports after the grace period. *)
Inductive spawn_result := SpawnError | Spawned (alive : bool).

(** The environment of one pass: [datetime.now()] in [check_process] and in
    [restart_process], the process table and the restart's outcome. *)
Record pass_env := mk_pass_env {
  now_check : datetime;
  now_restart : datetime;
  ptable : Z -> proc_entry;
  spawn : spawn_result }.

(** [self.processes] and the PID files: [Some (Some p)] is a file holding
    [p], [Some None] a file whose content is not an int, [None] no file. *)
Record wstate := mk_wstate {
  processes : gmap string ProcessInfo;
  pid_files : gmap string (option Z) }.

Inductive wevent :=
| RemovePidFile (g : string)
| SpawnMonitor (g : string)
| ProcessAlert (g : string) (status_text level alert_type : string).

(** [utils.load_pid(group_name)]: [None] on a missing file or a [ValueError]. *)
Definition load_pid (files : gmap string (option Z)) (g : string) : option Z :=
  match files !! g with Some (Some p) => Some p | _ => None end.

(** [if os.path.exists(pid_file): os.remove(pid_file)]. *)
Definition remove_pid_file (g : string) (st : wstate) : wstate * list wevent :=
  match pid_files st !! g with
  | Some _ => (mk_wstate (processes st) (delete g (pid_files st)), [RemovePidFile g])
  | None => (st, [])
  end.

Definition put (g : string) (i : ProcessInfo) (st : wstate) : wstate :=
  mk_wstate (<[g := i]> (processes st)) (pid_files st).

Definition opt_Z_eqb (a b : option Z) : bool :=
  match a, b with
  | Some x, Some y => Z.eqb x y
  | None, None => true
  | _, _ => false
  end.

(** [current_status == "已停止" or "手动停止" in current_status]. *)
Definition manual_stop_status (current_status : string) : bool :=
  String.eqb current_status ST_STOPPED || py_str_in MANUAL_MARK current_status.

(** [f"monitor_{group_name}.py"]. *)
Definition monitor_script_name (g : string) : string :=
  String.append "monitor_" (String.append g ".py").

(** [any(monitor_script_name in cmd for cmd in cmdline)]. *)
Definition is_own_monitor (g : string) (cmdline : list string) : bool :=
  existsb (py_str_in (monitor_script_name g)) cmdline.

(** The record [check_process] works on: the stored one, or
    [ProcessInfo(group_name, pid)] when there is none. *)
Definition current_record (env : pass_env) (g : string) (st : wstate) (p : option Z) : ProcessInfo :=
  match processes st !! g with
  | Some i => i
  | None => ProcessInfo_new (now_check env) g p
  end.

(** [if pid is not None and old_pid is not None and pid != old_pid:
    restart_count = 0], then [pid] and [last_check_time] updated. *)
Definition observe_pid (now : datetime) (p : option Z) (info : ProcessInfo) : ProcessInfo :=
  let info :=
    match p, pid info with
    | Some np, Some op => if Z.eqb np op then info else set_restart_count 0 info
    | _, _ => info
    end in
  set_last_check_time now (set_pid p info).

(** [Watchdog.check_process(group_name)]. *)
Definition check_process (env : pass_env) (g : string) (st : wstate) : wstate * list wevent * bool :=
  let p := load_pid (pid_files st) g in
  let info := observe_pid (now_check env) p (current_record env g st p) in
  match p with
  | None =>
      let '(st, ev) := remove_pid_file g st in
      if manual_stop_status (status info) then
        (put g (set_need_alert false (set_status ST_MANUAL info)) st, ev, false)
      else (put g (set_status ST_STOPPED info) st, ev, false)
  | Some np =>
      match ptable env np with
      | Live cmdline =>
          if negb (is_own_monitor g cmdline) then
            let '(st, ev) := remove_pid_file g st in
            (put g (set_status ST_STOPPED info) st, ev, false)
          else
            let info :=
              if String.eqb (status info) ST_STOPPED || String.eqb (status info) ST_MAX_RESTARTS
                 || String.eqb (status info) ST_MANUAL
              then set_need_alert true (set_restart_count 0 info) else info in
            (put g (set_status ST_RUNNING info) st, [], true)
      | _ =>
          let '(st, ev) := remove_pid_file g st in
          (put g (set_status ST_STOPPED info) st, ev, false)
      end
  end.

(** [Watchdog.restart_process(group_name)]. *)
Definition restart_process (env : pass_env) (g : string) (st : wstate) : wstate * list wevent * bool :=
  let current_time := now_restart env in
  let na :=
    match processes st !! g with
    | Some info =>
        match last_check_time info with
        | Some last_check => Some (negb (less_than_60s_ago current_time last_check))
        | None => None  (* TypeError on [current_time - None], caught: return False *)
        end
    | None => Some true
    end in
  match na with
  | None => (st, [], false)
  | Some na =>
      let st :=
        match processes st !! g with
        | Some info =>
            put g (set_was_restarted true (set_last_start_time current_time
                     (set_restart_count (restart_count info + 1) info))) st
        | None => st
        end in
      match spawn env with
      | SpawnError => (st, [SpawnMonitor g], false)
      | Spawned restart_success =>
          let st :=
            match processes st !! g with
            | Some info => put g (set_need_alert (na && restart_success) info) st
            | None => st
            end in
          (st, [SpawnMonitor g], restart_success)
      end
  end.

Definition ST_RESTARTED : string := "已自动重启".
Definition ST_RESTART_FAILED : string := "重启失败".

(** The body of [for group_name in self.groups:] in
    [Watchdog.check_all_processes] (the alerter is configured). *)
Definition check_group (max_restarts : Z) (env : pass_env) (g : string) (st : wstate)
  : wstate * list wevent :=
  let '(st, ev, is_running) := check_process env g st in
  if is_running then (st, ev) else
  match processes st !! g with
  | None => (st, ev)
  | Some process_info =>
      if String.eqb (status process_info) ST_MANUAL then (st, ev)
      else if Z.leb max_restarts (restart_count process_info) then
        (put g (set_status ST_MAX_RESTARTS process_info) st,
         ev ++ [ProcessAlert g ST_MAX_RESTARTS "error" "process"])
      else if need_alert process_info then
        let '(st, ev2, restart_result) := restart_process env g st in
        let ev := ev ++ ev2 in
        match processes st !! g with
        | Some updated =>
            if restart_result && need_alert updated then
              (st, ev ++ [ProcessAlert g ST_RESTARTED "warning" "process"])
            else if negb restart_result then
              (st, ev ++ [ProcessAlert g ST_RESTART_FAILED "warning" "process"])
            else (st, ev)
        | None =>
            if negb restart_result then
              (st, ev ++ [ProcessAlert g ST_RESTART_FAILED "warning" "process"])
            else (st, ev)
        end
      else (st, ev)
  end.

(** Successive passes over one group. *)
Fixpoint run_passes (max_restarts : Z) (g : string) (envs : list pass_env) (st : wstate)
  : wstate * list wevent :=
  match envs with
  | [] => (st, [])
  | env :: rest =>
      let '(st1, ev1) := check_group max_restarts env g st in
      let '(st2, ev2) := run_passes max_restarts g rest st1 in
      (st2, ev1 ++ ev2)
  end.

Definition is_error_alert (e : wevent) : bool :=
  match e with ProcessAlert _ _ lvl _ => String.eqb lvl "error" | _ => false end.

Definition is_spawn (e : wevent) : bool :=
  match e with SpawnMonitor _ => true | _ => false end.

End Supervision.

(** ** Concrete supervision scenarios *)
Module SupervisionScenarios.
Import DateTime Watchdog Supervision.

Definition t0 : datetime := mk_datetime 2024 5 1 12 0 0 0.
Definition t1 : datetime := mk_datetime 2024 5 1 12 0 10 0.
Definition t2 : datetime := mk_datetime 2024 5 1 12 1 10 0.

(** Every PID is dead. *)
Definition all_dead : Z -> proc_entry := fun _ => NoSuchProcess.

Definition env_at (t : datetime) (r : spawn_result) : pass_env :=
  mk_pass_env t t all_dead r.

Definition record (st : string) (n : Z) (na : bool) : ProcessInfo :=
  mk_ProcessInfo "group1" (Some 4242) st n (Some t0) (Some t0) true na.

(** Ledger with [group1]'s record; PID file of [group1] holding [4242]
    ([Some 4242]) or absent ([None]). *)
Definition state_of (i : ProcessInfo) (file : option Z) : wstate :=
  mk_wstate {[ "group1" := i ]}
    (match file with Some p => {[ "group1" := Some p ]} | None => ∅ end).

Definition status_after (env : pass_env) (st : wstate) : option string :=
  status <$> (processes (check_process env "group1" st).1.1 !! "group1").

Example check_process_running :
  (check_process (mk_pass_env t1 t1 (fun _ => Live ["python3"; "/opt/waf/bin/monitor_group1.py"]) SpawnError)
     "group1" (state_of (record ST_STOPPED 2 false) (Some 4242))).2 = true.
Proof. vm_compute. reflexivity. Qed.

(** C3 counterexample: [max_restarts = 3], a record at [restart_count = 3]
    whose process died (stale PID file).  Two passes emit two error
    alerts: after the first, the status [StoppedMaxRestarts] is turned back
    into [Stopped] by the next liveness check, and the cap fires again. *)
Lemma max_restarts_alert_repeats :
  let '(_, evs) :=
    run_passes 3 "group1" [env_at t1 SpawnError; env_at t2 SpawnError]
      (state_of (record ST_RUNNING 3 true) (Some 4242)) in
  List.filter is_error_alert evs =
    [ProcessAlert "group1" ST_MAX_RESTARTS "error" "process";
     ProcessAlert "group1" ST_MAX_RESTARTS "error" "process"] /\
  List.filter is_spawn evs = [].
Proof. vm_compute. split; reflexivity. Qed.

(** C4 counterexample: a dead group with [restart_count = 1 < 5], checked
    10 seconds before and already [Stopped], whose record has
    [need_alert = False]: no restart is attempted and [restart_count] stays 1. *)
Lemma stopped_without_need_alert_not_restarted :
  let '(st', evs) :=
    check_group 5 (env_at t1 (Spawned true)) "group1"
      (state_of (record ST_STOPPED 1 false) (Some 4242)) in
  List.filter is_spawn evs = [] /\
  restart_count <$> (processes st' !! "group1") = Some 1 /\
  less_than_60s_ago t1 t0 = true.
Proof. vm_compute. repeat split. Qed.

(** C5 counterexample: the same [Stopped] record, once with a PID file naming
    a dead process and once with no PID file: the first check gives
    [Stopped], the second [StoppedManually]. *)
Lemma stale_pid_differs_from_no_pid :
  status_after (env_at t1 SpawnError) (state_of (record ST_STOPPED 0 true) (Some 4242))
    = Some ST_STOPPED /\
  status_after (env_at t1 SpawnError) (state_of (record ST_STOPPED 0 true) None)
    = Some ST_MANUAL.
Proof. vm_compute. split; reflexivity. Qed.

(** C9 counterexample: prior status plain [Stopped] (no manual-stop mark),
    no PID file: the group is classified [StoppedManually], and the pass
    neither restarts it nor alerts, though [need_alert] was true and
    [restart_count] is 0. *)
Lemma plain_stopped_classified_manual :
  status_after (env_at t1 (Spawned true)) (state_of (record ST_STOPPED 0 true) None)
    = Some ST_MANUAL /\
  (check_group 5 (env_at t1 (Spawned true)) "group1"
     (state_of (record ST_STOPPED 0 true) None)).2 = [].
Proof. vm_compute. split; reflexivity. Qed.

End SupervisionScenarios.

(** ** Liveness check and restart policy *)
Module SupervisionProofs.
Import DateTime Watchdog Supervision.

(** A PID whose entry is not one of our monitor processes. *)
Definition stale (env : pass_env) (g : string) (p : Z) : bool :=
  match ptable env p with
  | Live cmdline => negb (is_own_monitor g cmdline)
  | _ => true
  end.

Lemma remove_pid_file_state (g : string) (st : wstate) :
  (remove_pid_file g st).1 = mk_wstate (processes st) (delete g (pid_files st)).
Proof.
  unfold remove_pid_file. destruct (pid_files st !! g) eqn:H; [done|].
  rewrite delete_id by done. by destruct st.
Qed.

Lemma remove_pid_file_events (g : string) (st : wstate) :
  (remove_pid_file g st).2 = if pid_files st !! g then [RemovePidFile g] else [].
Proof. unfold remove_pid_file. by destruct (pid_files st !! g). Qed.

Lemma check_process_no_pid (env : pass_env) (g : string) (st : wstate) :
  load_pid (pid_files st) g = None ->
  let info := observe_pid (now_check env) None (current_record env g st None) in
  check_process env g st =
    (put g (if manual_stop_status (status info)
            then set_need_alert false (set_status ST_MANUAL info)
            else set_status ST_STOPPED info) (remove_pid_file g st).1,
     (remove_pid_file g st).2, false).
Proof.
  intros Hp info. unfold check_process. rewrite Hp. fold info.
  destruct (remove_pid_file g st) as [st' ev].
  change (let '(st0, ev0) := (st', ev) in
          if manual_stop_status (status info)
          then (put g (set_need_alert false (set_status ST_MANUAL info)) st0, ev0, false)
          else (put g (set_status ST_STOPPED info) st0, ev0, false)) with
    (if manual_stop_status (status info)
     then (put g (set_need_alert false (set_status ST_MANUAL info)) st', ev, false)
     else (put g (set_status ST_STOPPED info) st', ev, false)).
  destruct (manual_stop_status (status info)); reflexivity.
Qed.

Lemma check_process_stale (env : pass_env) (g : string) (st : wstate) (p : Z) :
  load_pid (pid_files st) g = Some p -> stale env g p = true ->
  let info := observe_pid (now_check env) (Some p) (current_record env g st (Some p)) in
  check_process env g st =
    (put g (set_status ST_STOPPED info) (remove_pid_file g st).1, (remove_pid_file g st).2, false).
Proof.
  intros Hp Hs info. unfold check_process. rewrite Hp. fold info.
  unfold stale in Hs. destruct (ptable env p) as [| | |c];
    try (destruct (remove_pid_file g st); reflexivity).
  rewrite Hs. destruct (remove_pid_file g st); reflexivity.
Qed.

(** The liveness check only ever removes the group's PID file. *)
Lemma check_process_events (env : pass_env) (g : string) (st : wstate) :
  Forall (fun e => e = RemovePidFile g) (check_process env g st).1.2.
Proof.
  unfold check_process, remove_pid_file.
  destruct (load_pid (pid_files st) g) as [p|]; [destruct (ptable env p)|];
    destruct (pid_files st !! g); repeat case_match; simpl; repeat constructor.
Qed.

Lemma filter_spawn_removals (g : string) (ev : list wevent) :
  Forall (fun e => e = RemovePidFile g) ev ->
  List.filter is_spawn ev = [] /\ List.filter is_error_alert ev = [].
Proof. induction 1 as [|e ev -> _ [IH1 IH2]]; simpl; auto. Qed.

Lemma observe_pid_status (now : datetime) (p : option Z) (i : ProcessInfo) :
  status (observe_pid now p i) = status i /\ need_alert (observe_pid now p i) = need_alert i.
Proof. unfold observe_pid. destruct p, (pid i); try case_match; done. Qed.

(** A dead group's PID file is gone after the liveness check. *)
Lemma check_process_dead_no_file (env : pass_env) (g : string) (st st1 : wstate)
    (ev1 : list wevent) :
  check_process env g st = (st1, ev1, false) -> pid_files st1 !! g = None.
Proof.
  unfold check_process, remove_pid_file.
  destruct (load_pid (pid_files st) g) as [p|]; [destruct (ptable env p)|];
    destruct (pid_files st !! g) eqn:Hf; repeat case_match; intros Hc; simplify_eq/=;
    try apply lookup_delete_eq; done.
Qed.

Definition max_alert (g : string) : wevent := ProcessAlert g ST_MAX_RESTARTS "error" "process".

(** Passes over a capped group whose PID file stays absent: one error alert
    per pass, never a restart. *)
Lemma run_passes_capped (max_restarts : Z) (g : string) (envs : list pass_env)
    (st : wstate) (info : ProcessInfo) :
  processes st !! g = Some info -> pid_files st !! g = None ->
  max_restarts <= restart_count info -> manual_stop_status (status info) = false ->
  let '(_, evs) := run_passes max_restarts g envs st in
  List.filter is_error_alert evs = repeat (max_alert g) (length envs) /\
  List.filter is_spawn evs = [].
Proof.
  revert st info. induction envs as [|env envs IH]; intros st info Hi Hf Hmax Hman; [done|].
  cbn [run_passes].
  assert (Hl : load_pid (pid_files st) g = None) by (unfold load_pid; by rewrite Hf).
  set (info1 := observe_pid (now_check env) None (current_record env g st None)).
  assert (Hinfo1 : info1 = set_last_check_time (now_check env) (set_pid None info))
    by (unfold info1, current_record, observe_pid; by rewrite Hi).
  assert (Hrem : remove_pid_file g st = (st, [])) by (unfold remove_pid_file; by rewrite Hf).
  unfold check_group. rewrite (check_process_no_pid env g st Hl). fold info1.
  rewrite Hrem. cbn [fst snd].
  rewrite Hinfo1. cbn [status set_last_check_time set_pid]. rewrite Hman.
  cbn [processes put]. rewrite lookup_insert_eq. cbn [status set_status restart_count].
  assert (Hne : String.eqb ST_STOPPED ST_MANUAL = false) by reflexivity.
  rewrite Hne. cbn [restart_count set_last_check_time set_pid]. apply Z.leb_le in Hmax. rewrite Hmax.
  set (info2 := set_status ST_MAX_RESTARTS (set_status ST_STOPPED
                  (set_last_check_time (now_check env) (set_pid None info)))).
  set (st2 := put g info2 (put g (set_status ST_STOPPED
                  (set_last_check_time (now_check env) (set_pid None info))) st)).
  specialize (IH st2 info2).
  destruct (run_passes max_restarts g envs st2) as [st3 evs] eqn:Hrun.
  destruct IH as [IH1 IH2].
  - unfold st2, put. simpl. apply lookup_insert_eq.
  - unfold st2, put. simpl. done.
  - apply Z.leb_le in Hmax. unfold info2. simpl. done.
  - reflexivity.
  - rewrite !List.filter_app. rewrite IH1, IH2. split; reflexivity.
Qed.

(** C3 (amended): when a pass finds a group dead, not classified
    [StoppedManually], with [restart_count >= max_restarts], it sets the
    status to [StoppedMaxRestarts], emits one error-severity 'process' alert
    and attempts no restart.  The alert is not emitted once only: on every
    later pass (its PID file having been removed) the group is reclassified
    [Stopped], the cap fires again and another error alert is emitted, and
    no restart is ever attempted while [restart_count] stays at or above the
    cap. *)
Theorem max_restarts_cap (max_restarts : Z) (env : pass_env) (g : string)
    (st st1 : wstate) (ev1 : list wevent) (info : ProcessInfo) :
  check_process env g st = (st1, ev1, false) ->
  processes st1 !! g = Some info -> status info <> ST_MANUAL ->
  max_restarts <= restart_count info ->
  let st2 := put g (set_status ST_MAX_RESTARTS info) st1 in
  check_group max_restarts env g st = (st2, ev1 ++ [max_alert g]) /\
  List.filter is_error_alert (ev1 ++ [max_alert g]) = [max_alert g] /\
  List.filter is_spawn (ev1 ++ [max_alert g]) = [] /\
  (forall envs : list pass_env,
   let '(_, evs) := run_passes max_restarts g envs st2 in
   List.filter is_error_alert evs = repeat (max_alert g) (length envs) /\
   List.filter is_spawn evs = []).
Proof.
  intros Hc Hi Hst Hmax st2.
  destruct (filter_spawn_removals g ev1) as [Hs1 He1].
  { pose proof (check_process_events env g st) as HF. rewrite Hc in HF. exact HF. }
  split; [|split; [|split]].
  - unfold check_group. rewrite Hc, Hi.
    rewrite (proj2 (String.eqb_neq _ _) Hst). apply Z.leb_le in Hmax. rewrite Hmax. done.
  - rewrite List.filter_app, He1. done.
  - rewrite List.filter_app, Hs1. done.
  - intros envs. apply (run_passes_capped _ _ _ _ (set_status ST_MAX_RESTARTS info)).
    + unfold st2, put. simpl. apply lookup_insert_eq.
    + unfold st2, put. simpl. by apply (check_process_dead_no_file env g st st1 ev1).
    + done.
    + reflexivity.
Qed.

(** Witness for C3: [max_restarts = 3], a record at [restart_count = 3] whose
    PID file names a dead process. *)
Lemma max_restarts_cap_witness :
  let env := SupervisionScenarios.env_at SupervisionScenarios.t1 SpawnError in
  let st := SupervisionScenarios.state_of (SupervisionScenarios.record ST_RUNNING 3 true) (Some 4242) in
  let st1 := (check_process env "group1" st).1.1 in
  let ev1 := (check_process env "group1" st).1.2 in
  let info := default (SupervisionScenarios.record ST_RUNNING 0 true) (processes st1 !! "group1") in
  (check_process env "group1" st = (st1, ev1, false) /\
   processes st1 !! "group1" = Some info /\ status info <> ST_MANUAL /\
   3 <= restart_count info) /\
  let st2 := put "group1" (set_status ST_MAX_RESTARTS info) st1 in
  check_group 3 env "group1" st = (st2, ev1 ++ [max_alert "group1"]) /\
  List.filter is_error_alert (ev1 ++ [max_alert "group1"]) = [max_alert "group1"] /\
  List.filter is_spawn (ev1 ++ [max_alert "group1"]) = [] /\
  (forall envs : list pass_env,
   let '(_, evs) := run_passes 3 "group1" envs st2 in
   List.filter is_error_alert evs = repeat (max_alert "group1") (length envs) /\
   List.filter is_spawn evs = []).
Proof.
  intros env st st1 ev1 info.
  split; [split; [vm_compute; reflexivity | split; [vm_compute; reflexivity | split]]|].
  - apply String.eqb_neq. vm_compute. reflexivity.
  - vm_compute. discriminate.
  - refine (max_restarts_cap 3 env "group1" st st1 ev1 info _ _ _ _).
    + vm_compute. reflexivity.
    + vm_compute. reflexivity.
    + apply String.eqb_neq. vm_compute. reflexivity.
    + vm_compute. discriminate.
Defined.

(** C5 (amended): when the PID file holds a PID whose process is gone or
    cannot be inspected, or is alive with a command line that does not
    mention [monitor_<group>.py], the liveness check reports not running,
    removes the PID file and sets the status to [Stopped] whatever the prior
    status, keeping [need_alert] and recording that PID (resetting
    [restart_count] if it differs from the recorded one).  This is not the
    no-PID-file path: there a prior [Stopped] or manual-stop status gives
    [StoppedManually] instead (see C9). *)
Theorem stale_pid_reported_stopped (env : pass_env) (g : string) (st : wstate) (p : Z) :
  pid_files st !! g = Some (Some p) -> stale env g p = true ->
  let info := observe_pid (now_check env) (Some p) (current_record env g st (Some p)) in
  let '(st', ev, running) := check_process env g st in
  running = false /\ ev = [RemovePidFile g] /\ pid_files st' !! g = None /\
  processes st' !! g = Some (set_status ST_STOPPED info) /\
  need_alert info = need_alert (current_record env g st (Some p)).
Proof.
  intros Hf Hs info.
  assert (Hl : load_pid (pid_files st) g = Some p) by (unfold load_pid; by rewrite Hf).
  rewrite (check_process_stale env g st p Hl Hs). fold info.
  rewrite remove_pid_file_state, remove_pid_file_events, Hf.
  split; [done|]. split; [done|]. split.
  - simpl. apply lookup_delete_eq.
  - split; [simpl; apply lookup_insert_eq|]. apply observe_pid_status.
Qed.

(** Witness for C5: a [Stopped] record whose PID file names a dead process. *)
Lemma stale_pid_reported_stopped_witness :
  let env := SupervisionScenarios.env_at SupervisionScenarios.t1 SpawnError in
  let st := SupervisionScenarios.state_of (SupervisionScenarios.record ST_STOPPED 0 true) (Some 4242) in
  (pid_files st !! "group1" = Some (Some 4242) /\ stale env "group1" 4242 = true) /\
  let info := observe_pid (now_check env) (Some 4242) (current_record env "group1" st (Some 4242)) in
  let '(st', ev, running) := check_process env "group1" st in
  running = false /\ ev = [RemovePidFile "group1"] /\ pid_files st' !! "group1" = None /\
  processes st' !! "group1" = Some (set_status ST_STOPPED info) /\
  need_alert info = need_alert (current_record env "group1" st (Some 4242)).
Proof.
  intros env st.
  split; [split; vm_compute; reflexivity|].
  refine (stale_pid_reported_stopped env "group1" st 4242 _ _).
  - vm_compute. reflexivity.
  - vm_compute. reflexivity.
Defined.

(** C9 (amended): with no readable PID, the liveness check reports not
    running and classifies the group [StoppedManually] (clearing
    [need_alert]) whenever the prior status is exactly [Stopped] or contains
    the manual-stop mark, and [Stopped] otherwise; a group classified
    [StoppedManually] is neither restarted nor alerted on by the pass. *)
Theorem no_pid_classification (env : pass_env) (g : string) (st : wstate) :
  load_pid (pid_files st) g = None ->
  let info := current_record env g st None in
  let manual := manual_stop_status (status info) in
  let '(st', ev, running) := check_process env g st in
  running = false /\ pid_files st' !! g = None /\
  status <$> (processes st' !! g) = Some (if manual then ST_MANUAL else ST_STOPPED) /\
  need_alert <$> (processes st' !! g) = Some (if manual then false else need_alert info) /\
  (manual = true -> forall max_restarts, check_group max_restarts env g st = (st', ev)).
Proof.
  intros Hl info manual.
  destruct (observe_pid_status (now_check env) None info) as [Hst Hna].
  assert (Hc := check_process_no_pid env g st Hl). cbv zeta in Hc. fold info in Hc.
  rewrite Hst in Hc. fold manual in Hc.
  rewrite Hc. rewrite remove_pid_file_state.
  split; [done|]. split; [simpl; apply lookup_delete_eq|].
  cbn [processes put]. rewrite lookup_insert_eq.
  destruct manual; simpl.
  - split; [done|]. split; [done|]. intros _ max_restarts.
    unfold check_group. rewrite Hc. cbn [processes put]. rewrite remove_pid_file_state.
    simpl. rewrite lookup_insert_eq. simpl. done.
  - split; [done|]. split; [done|]. intros [=].
Qed.

(** Witness for C9: a plain [Stopped] record and no PID file. *)
Lemma no_pid_classification_witness :
  let env := SupervisionScenarios.env_at SupervisionScenarios.t1 (Spawned true) in
  let st := SupervisionScenarios.state_of (SupervisionScenarios.record ST_STOPPED 0 true) None in
  load_pid (pid_files st) "group1" = None /\
  let info := current_record env "group1" st None in
  let manual := manual_stop_status (status info) in
  let '(st', ev, running) := check_process env "group1" st in
  running = false /\ pid_files st' !! "group1" = None /\
  status <$> (processes st' !! "group1") = Some (if manual then ST_MANUAL else ST_STOPPED) /\
  need_alert <$> (processes st' !! "group1") = Some (if manual then false else need_alert info) /\
  (manual = true -> forall max_restarts, check_group max_restarts env "group1" st = (st', ev)).
Proof.
  intros env st.
  split; [vm_compute; reflexivity|].
  refine (no_pid_classification env "group1" st _).
  vm_compute. reflexivity.
Defined.

(** C4 (amended): for a group found dead (not [StoppedManually]) with
    [restart_count < max_restarts], a restart is attempted only when the
    record's [need_alert] is true; with [need_alert] false the pass does
    nothing more ([restart_count] unchanged, no restart, no alert).  When it
    is attempted, [restart_count] is incremented, [last_start_time] and
    [was_restarted] are set and the monitor is spawned, independently of the
    status; the 60-second test compares the restart time with
    [last_check_time] (just refreshed by the liveness check) and only decides
    [need_alert := not (checked < 60 s ago) and restart_success]. *)
Theorem restart_gated_by_need_alert (max_restarts : Z) (env : pass_env) (g : string)
    (st st1 : wstate) (ev1 : list wevent) (info : ProcessInfo) :
  check_process env g st = (st1, ev1, false) ->
  processes st1 !! g = Some info -> status info <> ST_MANUAL ->
  restart_count info < max_restarts ->
  (need_alert info = false ->
   check_group max_restarts env g st = (st1, ev1) /\ List.filter is_spawn ev1 = []) /\
  (need_alert info = true -> forall lc : datetime, last_check_time info = Some lc ->
   let '(st2, ev2) := check_group max_restarts env g st in
   List.filter is_spawn ev2 = [SpawnMonitor g] /\
   processes st2 !! g =
     Some (set_need_alert
             (match spawn env with
              | Spawned alive => negb (less_than_60s_ago (now_restart env) lc) && alive
              | SpawnError => true
              end)
             (set_was_restarted true (set_last_start_time (now_restart env)
                (set_restart_count (restart_count info + 1) info))))).
Proof.
  intros Hc Hi Hst Hlt.
  destruct (filter_spawn_removals g ev1) as [Hs1 _].
  { pose proof (check_process_events env g st) as HF. rewrite Hc in HF. exact HF. }
  assert (Hck : check_group max_restarts env g st =
    if need_alert info then
      let '(st, ev2, restart_result) := restart_process env g st1 in
      let ev := ev1 ++ ev2 in
      match processes st !! g with
      | Some updated =>
          if restart_result && need_alert updated then
            (st, ev ++ [ProcessAlert g ST_RESTARTED "warning" "process"])
          else if negb restart_result then
            (st, ev ++ [ProcessAlert g ST_RESTART_FAILED "warning" "process"])
          else (st, ev)
      | None =>
          if negb restart_result then
            (st, ev ++ [ProcessAlert g ST_RESTART_FAILED "warning" "process"])
          else (st, ev)
      end
    else (st1, ev1)).
  { unfold check_group. rewrite Hc, Hi. rewrite (proj2 (String.eqb_neq _ _) Hst).
    replace (max_restarts <=? restart_count info) with false
      by (symmetry; apply Z.leb_gt; lia). done. }
  split.
  - intros Hna. rewrite Hck, Hna. done.
  - intros Hna lc Hlc. rewrite Hck, Hna.
    unfold restart_process. rewrite Hi, Hlc. cbn [processes put]. rewrite lookup_insert_eq.
    destruct (spawn env) as [|alive].
    + cbn [processes put]. rewrite lookup_insert_eq. simpl.
      split; [rewrite !List.filter_app, Hs1; done|].
      rewrite lookup_insert_eq. destruct info; simpl in *; subst; done.
    + cbn [processes put]. rewrite !lookup_insert_eq. simpl.
      destruct (_ && alive); simpl; destruct alive; simpl;
        (split; [rewrite !List.filter_app, Hs1; done | rewrite insert_insert_eq, lookup_insert_eq; done]).
Qed.

(** Witness for C4: a [Stopped] record with [restart_count = 1 < 5] and
    [need_alert = True] whose PID file names a dead process. *)
Lemma restart_gated_by_need_alert_witness :
  let env := SupervisionScenarios.env_at SupervisionScenarios.t1 (Spawned true) in
  let st := SupervisionScenarios.state_of (SupervisionScenarios.record ST_STOPPED 1 true) (Some 4242) in
  let st1 := (check_process env "group1" st).1.1 in
  let ev1 := (check_process env "group1" st).1.2 in
  let info := default (SupervisionScenarios.record ST_RUNNING 0 true) (processes st1 !! "group1") in
  (check_process env "group1" st = (st1, ev1, false) /\
   processes st1 !! "group1" = Some info /\ status info <> ST_MANUAL /\
   restart_count info < 5) /\
  (need_alert info = false ->
   check_group 5 env "group1" st = (st1, ev1) /\ List.filter is_spawn ev1 = []) /\
  (need_alert info = true -> forall lc : datetime, last_check_time info = Some lc ->
   let '(st2, ev2) := check_group 5 env "group1" st in
   List.filter is_spawn ev2 = [SpawnMonitor "group1"] /\
   processes st2 !! "group1" =
     Some (set_need_alert
             (match spawn env with
              | Spawned alive => negb (less_than_60s_ago (now_restart env) lc) && alive
              | SpawnError => true
              end)
             (set_was_restarted true (set_last_start_time (now_restart env)
                (set_restart_count (restart_count info + 1) info))))).
Proof.
  intros env st st1 ev1 info.
  split; [split; [vm_compute; reflexivity | split; [vm_compute; reflexivity | split]]|].
  - apply String.eqb_neq. vm_compute. reflexivity.
  - vm_compute. reflexivity.
  - refine (restart_gated_by_need_alert 5 env "group1" st st1 ev1 info _ _ _ _).
    + vm_compute. reflexivity.
    + vm_compute. reflexivity.
    + apply String.eqb_neq. vm_compute. reflexivity.
    + vm_compute. reflexivity.
Defined.

End SupervisionProofs.

(** * Python text as code points: [str.strip], [str.split], universal newlines *)
Module PyText.

(** A Python [str] as its list of Unicode code points. *)
Definition ustr := list Z.

(** [ch.isspace()] for one code point: exactly the characters CPython's
    [_PyUnicode_IsWhitespace] accepts. *)
Definition py_isspace (c : Z) : bool :=
  ((9 <=? c) && (c <=? 13)) || ((28 <=? c) && (c <=? 32)) || (c =? 133) || (c =? 160) ||
  (c =? 5760) || ((8192 <=? c) && (c <=? 8202)) || (c =? 8232) || (c =? 8233) ||
  (c =? 8239) || (c =? 8287) || (c =? 12288).

(** [s.lstrip()], [s.rstrip()], [s.strip()] without argument. *)
Fixpoint lstrip (s : ustr) : ustr :=
  match s with
  | [] => []
  | c :: r => if py_isspace c then lstrip r else s
  end.

Definition rstrip (s : ustr) : ustr := rev (lstrip (rev s)).

Definition strip (s : ustr) : ustr := rstrip (lstrip s).

(** [s.split(sep)] for a one-character [sep]: never an empty list. *)
Fixpoint split_on (sep : Z) (s : ustr) : list ustr :=
  match s with
  | [] => [[]]
  | c :: r =>
      if c =? sep then [] :: split_on sep r
      else match split_on sep r with
           | w :: ws => (c :: w) :: ws
           | [] => [[c]]
           end
  end.

(** [s.replace(a, b)] for one-character [a] and [b]. *)
Definition replace_char (a b : Z) (s : ustr) : ustr :=
  map (fun c => if c =? a then b else c) s.

(** [ch in s] for one character [ch]. *)
Definition contains (ch : Z) (s : ustr) : bool := existsb (Z.eqb ch) s.

(** Reading a text file in the default newline mode: ["\r\n"] and a lone
    ["\r"] are read as ["\n"]. *)
Fixpoint translate_newlines (s : ustr) : ustr :=
  match s with
  | [] => []
  | c :: r =>
      if c =? 13 then
        match r with
        | d :: r' => if d =? 10 then 10 :: translate_newlines r' else 10 :: translate_newlines r
        | [] => [10]
        end
      else c :: translate_newlines r
  end.

(** [for line in f]: the lines of the text, each keeping its ["\n"]
    (the last one has none when the text does not end with ["\n"]). *)
Fixpoint file_lines (s : ustr) : list ustr :=
  match s with
  | [] => []
  | c :: r =>
      if c =? 10 then [10] :: file_lines r
      else match file_lines r with
           | l :: ls => (c :: l) :: ls
           | [] => [[c]]
           end
  end.

Definition read_lines (content : ustr) : list ustr := file_lines (translate_newlines content).

(** UTF-8 decoding of a string literal, to write [str] constants. *)
Fixpoint utf8 (s : string) : ustr :=
  match s with
  | EmptyString => []
  | String a r =>
      let x := Z.of_nat (nat_of_ascii a) in
      if x <? 128 then x :: utf8 r
      else if x <? 224 then
        match r with
        | String b r' => ((x - 192) * 64 + (Z.of_nat (nat_of_ascii b) - 128)) :: utf8 r'
        | EmptyString => []
        end
      else if x <? 240 then
        match r with
        | String b (String c r') =>
            ((x - 224) * 4096 + (Z.of_nat (nat_of_ascii b) - 128) * 64
             + (Z.of_nat (nat_of_ascii c) - 128)) :: utf8 r'
        | _ => []
        end
      else
        match r with
        | String b (String c (String d r')) =>
            ((x - 240) * 262144 + (Z.of_nat (nat_of_ascii b) - 128) * 4096
             + (Z.of_nat (nat_of_ascii c) - 128) * 64 + (Z.of_nat (nat_of_ascii d) - 128)) :: utf8 r'
        | _ => []
        end
  end.

End PyText.

(** * Target files: [utils.load_config(group_name, 'targets')] *)
Module Targets.
Import PyText.

(** ["未知WAF"] *)
Definition UNKNOWN_WAF : ustr := utf8 "未知WAF".

(** One line of the loop:
<<
    line = line.strip()
    if not line or line.startswith('#'):
        continue
    parts = line.split(';')
    url = parts[0].strip()
    waf = parts[1].strip() if len(parts) > 1 else "未知WAF"
>>
    [None] is the [continue]. *)
Definition parse_target_line (line : ustr) : option (ustr * ustr) :=
  let line := strip line in
  match line with
  | [] => None
  | c :: _ =>
      if c =? 35 then None
      else
        let parts := split_on 59 line in
        let url := strip (default [] (head parts)) in
        let waf := match parts with _ :: w :: _ => strip w | _ => UNKNOWN_WAF end in
        Some (url, waf)
  end.

(** [urls.append(url); url_to_waf[url] = waf]. *)
Definition target_line (acc : list ustr * gmap ustr ustr) (line : ustr)
  : list ustr * gmap ustr ustr :=
  match parse_target_line line with
  | None => acc
  | Some (url, waf) => (acc.1 ++ [url], <[url := waf]> acc.2)
  end.

(** [load_config(group_name, 'targets')] on the decoded content of
    [conf/targets_<group>.txt]: [(urls, url_to_waf)]. *)
Definition load_targets_text (content : ustr) : list ustr * gmap ustr ustr :=
  foldl target_line ([], ∅) (read_lines content).

(** A field that can be written between the separators of a line and read
    back: no [';'], no line break, no white space at either end. *)
Definition field_ok (s : ustr) : bool :=
  forallb (fun c => negb (c =? 59) && negb (c =? 10) && negb (c =? 13)) s &&
  negb (py_isspace (default 0 (head s))) && negb (py_isspace (default 0 (last s))).

(** A target file written as one [url;waf] line per entry. *)
Definition target_file (es : list (ustr * ustr)) : ustr :=
  concat (map (fun e => e.1 ++ [59] ++ e.2 ++ [10]) es).

Definition insert_all (m : gmap ustr ustr) (es : list (ustr * ustr)) : gmap ustr ustr :=
  foldl (fun m e => <[e.1 := e.2]> m) m es.

(** An entry that survives the loop: both fields writable, and a URL that
    is not empty and does not start with ['#']. *)
Definition entry_ok (e : ustr * ustr) : bool :=
  field_ok e.1 && field_ok e.2 && match e.1 with [] => false | c :: _ => negb (c =? 35) end.

Definition no_cr (s : ustr) : bool := forallb (fun c => negb (c =? 13)) s.

End Targets.

Module TargetProofs.
Import PyText Targets.

Lemma foldl_target_line (lines : list ustr) (us : list ustr) (m : gmap ustr ustr) :
  foldl target_line (us, m) lines =
    (us ++ map fst (omap parse_target_line lines), insert_all m (omap parse_target_line lines)).
Proof.
  revert us m. induction lines as [|l lines IH]; intros us m; simpl.
  - by rewrite app_nil_r.
  - unfold target_line at 2. destruct (parse_target_line l) as [[u w]|]; simpl.
    + rewrite IH. by rewrite <- app_assoc.
    + apply IH.
Qed.

Lemma insert_all_lookup (es : list (ustr * ustr)) (m : gmap ustr ustr) (u : ustr) :
  insert_all m es !! u =
    match last (map snd (filter (fun e => e.1 = u) es)) with
    | Some w => Some w
    | None => m !! u
    end.
Proof.
  revert m. induction es as [|[a b] es IH]; intros m; simpl; [done|].
  unfold insert_all in IH |- *. simpl. rewrite IH. rewrite filter_cons. simpl.
  case_decide as Hau; simpl.
  - subst. rewrite last_cons. destruct (last _); [done|]. apply lookup_insert_eq.
  - destruct (last _); [done|]. apply lookup_insert_ne. done.
Qed.

Lemma insert_all_dom (es : list (ustr * ustr)) (m : gmap ustr ustr) :
  dom (insert_all m es) = dom m ∪ list_to_set (map fst es).
Proof.
  revert m. induction es as [|[a b] es IH]; intros m; simpl.
  - set_solver.
  - unfold insert_all in IH |- *. simpl. rewrite IH, dom_insert_L. set_solver.
Qed.

Lemma lstrip_nonspace (c : Z) (r : ustr) :
  py_isspace c = false -> lstrip (c :: r) = c :: r.
Proof. intros H. simpl. by rewrite H. Qed.

Lemma rstrip_snoc_nonspace (l : ustr) (c : Z) :
  py_isspace c = false -> rstrip (l ++ [c]) = l ++ [c].
Proof.
  intros H. unfold rstrip. rewrite rev_app_distr. simpl. rewrite H.
  change (c :: rev l) with (rev [c] ++ rev l). rewrite <- rev_app_distr.
  apply rev_involutive.
Qed.

Lemma rstrip_snoc_space (l : ustr) (c : Z) :
  py_isspace c = true -> rstrip (l ++ [c]) = rstrip l.
Proof. intros H. unfold rstrip. rewrite rev_app_distr. simpl. by rewrite H. Qed.

Lemma rstrip_last (s : ustr) :
  py_isspace (default 0 (last s)) = false -> rstrip s = s.
Proof.
  destruct (last s) as [c|] eqn:Hl; simpl; intros H.
  - apply last_Some in Hl as [l ->]. by apply rstrip_snoc_nonspace.
  - apply last_None in Hl as ->. done.
Qed.

Lemma lstrip_head (s : ustr) :
  py_isspace (default 0 (head s)) = false -> lstrip s = s.
Proof. destruct s as [|c r]; simpl; [done|]. intros H. by rewrite H. Qed.

Lemma field_ok_inv (s : ustr) :
  field_ok s = true ->
  Forall (fun c => c <> 59 /\ c <> 10 /\ c <> 13) s /\
  py_isspace (default 0 (head s)) = false /\ py_isspace (default 0 (last s)) = false.
Proof.
  unfold field_ok. intros H. apply andb_true_iff in H as [H H3].
  apply andb_true_iff in H as [H1 H2]. apply negb_true_iff in H2, H3.
  split; [|done]. apply Forall_forall. intros c Hc.
  rewrite forallb_forall in H1. specialize (H1 c). apply list_elem_of_In in Hc.
  specialize (H1 Hc). repeat rewrite andb_true_iff in H1. rewrite !negb_true_iff, !Z.eqb_neq in H1.
  lia.
Qed.

Lemma strip_field (s : ustr) : field_ok s = true -> strip s = s.
Proof.
  intros H. apply field_ok_inv in H as (_ & Hh & Hl). unfold strip.
  rewrite lstrip_head by done. by apply rstrip_last.
Qed.

Lemma split_on_none (s : ustr) :
  Forall (fun c => c <> 59) s -> split_on 59 s = [s].
Proof.
  induction 1 as [|c s Hc _ IH]; [done|]. simpl.
  rewrite (proj2 (Z.eqb_neq c 59) Hc), IH. done.
Qed.

Lemma split_on_app (u r : ustr) :
  Forall (fun c => c <> 59) u -> split_on 59 (u ++ 59 :: r) = u :: split_on 59 r.
Proof.
  induction 1 as [|c u Hc _ IH]; [done|]. simpl.
  rewrite (proj2 (Z.eqb_neq c 59) Hc), IH. done.
Qed.

Lemma translate_newlines_id (s : ustr) :
  Forall (fun c => c <> 13) s -> translate_newlines s = s.
Proof.
  induction 1 as [|c s Hc _ IH]; [done|]. simpl.
  rewrite (proj2 (Z.eqb_neq c 13) Hc), IH. done.
Qed.

Lemma file_lines_app (l r : ustr) :
  Forall (fun c => c <> 10) l -> file_lines (l ++ 10 :: r) = (l ++ [10]) :: file_lines r.
Proof.
  induction 1 as [|c l Hc _ IH]; [done|]. simpl.
  rewrite (proj2 (Z.eqb_neq c 10) Hc), IH. done.
Qed.

Lemma entry_ok_inv (u w : ustr) :
  entry_ok (u, w) = true -> field_ok u = true /\ field_ok w = true /\ u <> [] /\ head u <> Some 35.
Proof.
  unfold entry_ok. simpl. rewrite !andb_true_iff. intros [[Hu Hw] Hh].
  destruct u as [|c u]; [done|]. simpl in Hh. apply negb_true_iff, Z.eqb_neq in Hh.
  repeat split; try done. simpl. congruence.
Qed.

Lemma parse_written_line (u w : ustr) :
  entry_ok (u, w) = true -> parse_target_line (u ++ 59 :: w ++ [10]) = Some (u, w).
Proof.
  intros H. apply entry_ok_inv in H as (Hu & Hw & Hne & Hh).
  pose proof (field_ok_inv u Hu) as (Hu1 & Hu2 & Hu3).
  pose proof (field_ok_inv w Hw) as (Hw1 & Hw2 & Hw3).
  assert (Hs : strip (u ++ 59 :: w ++ [10]) = u ++ 59 :: w).
  { unfold strip. rewrite lstrip_head.
    2:{ destruct u; [done|]. done. }
    rewrite app_comm_cons, app_assoc, rstrip_snoc_space by reflexivity.
    apply rstrip_last. rewrite last_app. simpl. rewrite last_cons.
    destruct (last w) eqn:Hl; [simpl in Hw3; done|reflexivity]. }
  unfold parse_target_line. rewrite Hs.
  destruct u as [|c u']; [done|]. simpl in Hh, Hu2. cbn [app].
  rewrite (proj2 (Z.eqb_neq c 35)) by congruence.
  change (c :: u' ++ 59 :: w) with ((c :: u') ++ 59 :: w).
  rewrite split_on_app by (eapply Forall_impl; [exact Hu1|]; simpl; tauto).
  rewrite split_on_none by (eapply Forall_impl; [exact Hw1|]; simpl; tauto).
  simpl. rewrite (strip_field (c :: u')), strip_field by done. done.
Qed.

Lemma read_target_file (es : list (ustr * ustr)) :
  Forall (fun e => entry_ok e = true) es ->
  read_lines (target_file es) = map (fun e => e.1 ++ 59 :: e.2 ++ [10]) es.
Proof.
  intros Hes. unfold read_lines.
  assert (Ht : translate_newlines (target_file es) = target_file es).
  { apply translate_newlines_id. unfold target_file.
    induction Hes as [|[u w] es He _ IH]; simpl; [constructor|].
    destruct (entry_ok_inv u w He) as (Hu & Hw & _). apply field_ok_inv in Hu as (Hu & _), Hw as (Hw & _).
    simpl in Hu, Hw. simpl in IH.
    repeat first [ exact IH | lia | apply Forall_app; split
                 | eapply Forall_impl; [eassumption|]; simpl; tauto | constructor ]. }
  rewrite Ht. clear Ht. unfold target_file.
  induction Hes as [|[u w] es He _ IH]; simpl; [done|].
  destruct (entry_ok_inv u w He) as (Hu & Hw & _). apply field_ok_inv in Hu as (Hu & _), Hw as (Hw & _).
  simpl in Hu, Hw, IH.
  replace ((u ++ 59 :: w ++ [10]) ++ concat (map (fun e => e.1 ++ 59 :: e.2 ++ [10]) es))
    with ((u ++ 59 :: w) ++ 10 :: concat (map (fun e => e.1 ++ 59 :: e.2 ++ [10]) es))
    by (rewrite <- !app_assoc; simpl; rewrite <- !app_assoc; reflexivity).
  rewrite file_lines_app.
  - rewrite IH. rewrite <- app_assoc. done.
  - apply Forall_app. split; [eapply Forall_impl; [exact Hu|]; simpl; tauto|].
    constructor; [lia|]. eapply Forall_impl; [exact Hw|]; simpl; tauto.
Qed.

Lemma parse_target_file (es : list (ustr * ustr)) :
  Forall (fun e => entry_ok e = true) es -> omap parse_target_line (read_lines (target_file es)) = es.
Proof.
  intros Hes. rewrite read_target_file by done.
  induction Hes as [|[u w] es He _ IH]; simpl; [done|].
  rewrite parse_written_line by done. f_equal. exact IH.
Qed.

(** [\n] written as [\r\n], and [\n] written as a lone [\r]. *)
Definition crlf (s : ustr) : ustr := flat_map (fun c => if c =? 10 then [13; 10] else [c]) s.
Definition cr_only (s : ustr) : ustr := map (fun c => if c =? 10 then 13 else c) s.

Lemma translate_crlf (s : ustr) :
  Forall (fun c => c <> 13) s -> translate_newlines (crlf s) = s.
Proof.
  induction 1 as [|c s Hc _ IH]; [done|]. simpl.
  destruct (Z.eqb_spec c 10) as [->|Hne]; simpl.
  - by rewrite IH.
  - rewrite (proj2 (Z.eqb_neq c 13) Hc). by rewrite IH.
Qed.

Lemma translate_cr (r : ustr) :
  head r <> Some 10 -> translate_newlines (13 :: r) = 10 :: translate_newlines r.
Proof. destruct r as [|d r]; [done|]. simpl. intros Hd. rewrite (proj2 (Z.eqb_neq d 10)); congruence. Qed.

Lemma translate_cr_only (s : ustr) :
  Forall (fun c => c <> 13) s -> translate_newlines (cr_only s) = s.
Proof.
  induction 1 as [|c s Hc _ IH]; [done|].
  change (cr_only (c :: s)) with ((if c =? 10 then 13 else c) :: cr_only s).
  destruct (Z.eqb_spec c 10) as [->|Hne].
  - rewrite translate_cr, IH; [done|].
    destruct s as [|d s]; [done|]. simpl. destruct (Z.eqb_spec d 10); congruence.
  - simpl. rewrite (proj2 (Z.eqb_neq c 13) Hc). by rewrite IH.
Qed.

Lemma no_cr_Forall (s : ustr) : no_cr s = true -> Forall (fun c => c <> 13) s.
Proof.
  unfold no_cr. rewrite forallb_forall. intros H. apply Forall_forall. intros c Hc.
  apply list_elem_of_In, H, negb_true_iff, Z.eqb_neq in Hc. exact Hc.
Qed.

(** X1: the target file loader keeps every accepted line's URL in file
    order, duplicates included, while [url_to_waf] has one key per distinct
    URL and keeps the WAF name of its last line. *)
Theorem load_targets_text_entries (content u : ustr) :
  let es := omap parse_target_line (read_lines content) in
  (load_targets_text content).1 = map fst es /\
  dom (load_targets_text content).2 = list_to_set (map fst es) /\
  (load_targets_text content).2 !! u = last (map snd (filter (fun e => e.1 = u) es)).
Proof.
  intros es. unfold load_targets_text. rewrite foldl_target_line. fold es. cbn [fst snd].
  split; [done|]. split.
  - rewrite insert_all_dom, dom_empty_L. set_solver.
  - rewrite insert_all_lookup. destruct (last _); done.
Qed.

(** X2: a target file written as one [url;waf] line per entry, with fields
    free of [';'], line breaks and surrounding white space and URLs that
    are not empty and do not start with ['#'], is read back entry for
    entry, and the URL list is the entries' URLs in order. *)
Theorem target_file_round_trip (es : list (ustr * ustr)) :
  forallb entry_ok es = true ->
  omap parse_target_line (read_lines (target_file es)) = es /\
  (load_targets_text (target_file es)).1 = map fst es.
Proof.
  intros H. assert (Hes : Forall (fun e => entry_ok e = true) es).
  { apply Forall_forall. intros e He. rewrite forallb_forall in H. apply H, list_elem_of_In, He. }
  split; [by apply parse_target_file|].
  unfold load_targets_text. rewrite foldl_target_line, parse_target_file by done. done.
Qed.

Lemma target_file_round_trip_witness :
  forallb entry_ok [(utf8 "https://a.example.com", utf8 "长亭WAF");
                    (utf8 "https://b.example.com/login", utf8 "雷池")] = true /\
  omap parse_target_line (read_lines (target_file
    [(utf8 "https://a.example.com", utf8 "长亭WAF");
     (utf8 "https://b.example.com/login", utf8 "雷池")])) =
    [(utf8 "https://a.example.com", utf8 "长亭WAF");
     (utf8 "https://b.example.com/login", utf8 "雷池")] /\
  (load_targets_text (target_file
    [(utf8 "https://a.example.com", utf8 "长亭WAF");
     (utf8 "https://b.example.com/login", utf8 "雷池")])).1 =
    map fst [(utf8 "https://a.example.com", utf8 "长亭WAF");
             (utf8 "https://b.example.com/login", utf8 "雷池")].
Proof.
  split; [vm_compute; reflexivity|].
  refine (target_file_round_trip _ _). vm_compute. reflexivity.
Defined.

(** X3: a target file reads the same whether its lines end in ["\n"],
    ["\r\n"] or a lone ["\r"]. *)
Theorem load_targets_newline_styles (s : ustr) :
  no_cr s = true ->
  load_targets_text (crlf s) = load_targets_text s /\
  load_targets_text (cr_only s) = load_targets_text s.
Proof.
  intros H. apply no_cr_Forall in H. unfold load_targets_text, read_lines.
  rewrite translate_crlf, translate_cr_only by done. rewrite (translate_newlines_id s) by done.
  done.
Qed.

Definition sample_targets : ustr :=
  utf8 "# 目标" ++ [10] ++ utf8 "https://a.example.com;长亭WAF" ++ [10] ++
  utf8 "  https://b.example.com  " ++ [10].

Lemma load_targets_newline_styles_witness :
  no_cr sample_targets = true /\
  load_targets_text (crlf sample_targets) =
    load_targets_text sample_targets /\
  load_targets_text (cr_only sample_targets) =
    load_targets_text sample_targets.
Proof.
  split; [vm_compute; reflexivity|].
  refine (load_targets_newline_styles _ _). vm_compute. reflexivity.
Defined.

End TargetProofs.

(** * Alert channels (waf_monitor/alerter.py) *)
Module Alerting.
Import PyText.

(** Configuration values as [json.load] gives them (numbers as ints). *)
#[warnings="-register-all"]
Inductive jval :=
| JNull
| JBool (b : bool)
| JInt (z : Z)
| JStr (s : ustr)
| JList (l : list jval).

Definition nonempty {A} (l : list A) : bool := match l with [] => false | _ => true end.

(** Python truthiness. *)
Definition py_truthy (v : jval) : bool :=
  match v with
  | JNull => false
  | JBool b => b
  | JInt z => negb (z =? 0)
  | JStr s => nonempty s
  | JList l => nonempty l
  end.

(** ['@' in email and '.' in email]. *)
Definition valid_address (s : ustr) : bool := contains 64 s && contains 46 s.

(** [EmailAlerter._process_email_list(email_input)]. *)
Definition process_email_list (email_input : jval) : list ustr :=
  match email_input with
  | JStr s =>
      if contains 44 s || contains 59 s then
        let s := replace_char 59 44 s in
        let emails := List.filter nonempty (map strip (split_on 44 s)) in
        List.filter valid_address emails
      else if valid_address s then [strip s] else []
  | JList l =>
      flat_map (fun e => match e with
                         | JStr s => if valid_address s then [strip s] else []
                         | _ => []
                         end) l
  | _ => []
  end.

(** An [EmailAlerter] instance. *)
Record email_alerter := mk_email_alerter {
  smtp_server : jval;
  smtp_port : jval;
  sender_email : jval;
  sender_password : jval;
  receiver_emails : list ustr;
  site_receiver_emails : list ustr;
  process_receiver_emails : list ustr }.

(** [EmailAlerter.__init__]: the dedicated lists fall back to the general
    one when the argument is falsy. *)
Definition EmailAlerter_init (smtp_server smtp_port sender_email sender_password
    receiver_email site_receiver_email process_receiver_email : jval) : email_alerter :=
  let receiver_emails := process_email_list receiver_email in
  mk_email_alerter smtp_server smtp_port sender_email sender_password receiver_emails
    (if py_truthy site_receiver_email then process_email_list site_receiver_email
     else receiver_emails)
    (if py_truthy process_receiver_email then process_email_list process_receiver_email
     else receiver_emails).

(** What leaves the process: a POST to a webhook, or one SMTP message. *)
Inductive delivery :=
| WebhookPost (url : ustr) (content : string)
| MailSend (receiver : ustr) (subject body : string).

(** How the outside world answers: whether the POST to a webhook gets
    [200] with [errcode == 0], and whether the SMTP exchange for one
    receiver goes through. *)
Record transport := mk_transport {
  webhook_ok : ustr -> bool;
  smtp_ok : ustr -> bool }.

Definition nl : string := String (ascii_of_nat 10) EmptyString.

Definition wechat_prefix (level : string) : string :=
  if String.eqb level "error" then "🔴 严重告警"
  else if String.eqb level "warning" then "🟠 警告"
  else "ℹ️ 通知".

Definition wechat_content (message level : string) : string :=
  (wechat_prefix level ++ nl ++ message)%string.

(** [WechatAlerter.send_alert(message, level)]; a [webhook_url] that is not
    a string makes [requests.post] raise before sending, which is caught. *)
Definition wechat_send (tr : transport) (webhook_url : jval) (message level : string)
  : list delivery * bool :=
  match webhook_url with
  | JStr u => ([WebhookPost u (wechat_content message level)], webhook_ok tr u)
  | _ => ([], false)
  end.

(** [message.replace('\n', '<br>')]. *)
Fixpoint html_lines (s : string) : string :=
  match s with
  | EmptyString => EmptyString
  | String c r =>
      if Ascii.eqb c (ascii_of_nat 10) then ("<br>" ++ html_lines r)%string
      else String c (html_lines r)
  end.

Definition email_subject (type_prefix level : string) : string :=
  if String.eqb level "error" then (type_prefix ++ "【严重告警】WAF监控系统告警")%string
  else if String.eqb level "warning" then (type_prefix ++ "【警告】WAF监控系统告警")%string
  else (type_prefix ++ "【通知】WAF监控系统通知")%string.

(** [alert_type == 'site'] etc., [None] being Python's [None]. *)
Definition is_type (t : string) (alert_type : option string) : bool :=
  match alert_type with Some a => String.eqb a t | None => false end.

(** [EmailAlerter.send_alert(message, level, alert_type)]: one message per
    receiver, each in its own [try]; the fixed HTML template around the
    body is left out. *)
Definition email_send (tr : transport) (e : email_alerter) (message level : string)
    (alert_type : option string) : list delivery * bool :=
  let '(receivers, type_prefix) :=
    if is_type "site" alert_type then (site_receiver_emails e, "【站点监控】"%string)
    else if is_type "process" alert_type then (process_receiver_emails e, "【进程监控】"%string)
    else (receiver_emails e, ""%string) in
  match receivers with
  | [] => ([], false)
  | _ =>
      let subject := email_subject type_prefix level in
      fold_left (fun '(ds, success) receiver =>
                   (ds ++ [MailSend receiver subject (html_lines message)],
                    if smtp_ok tr receiver then true else success))
                receivers ([], false)
  end.

(** The members of a [MultiAlerter]: a plain [WechatAlerter], the two
    [WechatAlerter]s whose [send_alert] attribute was replaced by
    [site_send_alert] / [process_send_alert], and an [EmailAlerter]. *)
Inductive channel :=
| ChWechat (webhook_url : jval)
| ChSiteWrapper (webhook_url : jval)
| ChProcessWrapper (webhook_url : jval)
| ChEmail (e : email_alerter).

(** The [MultiAlerter] built by one call of [create_alerter], with the
    closure cell [original_send_alert] both wrappers read: the local
    variable holds the bound [send_alert] of the last [WechatAlerter]
    assigned to it, here given by that alerter's webhook URL. *)
Record multi_alerter := mk_multi_alerter {
  alerters : list channel;
  original_send_alert : option jval }.

(** ['alert_type' in inspect.signature(alerter.send_alert).parameters]. *)
Definition takes_alert_type (c : channel) : bool :=
  match c with ChWechat _ => false | _ => true end.

(** [alert_type is None]. *)
Definition is_none (alert_type : option string) : bool :=
  match alert_type with None => true | Some _ => false end.

(** Calling [send_alert(message, level)] on a member that does not take
    [alert_type]. *)
Definition channel_send2 (tr : transport) (c : channel) (message level : string)
  : list delivery * bool :=
  match c with
  | ChWechat u => wechat_send tr u message level
  | _ => ([], false)
  end.

(** Calling [send_alert(message, level, alert_type)] on a member that takes
    it.  A wrapper calls the function in the cell; the cell is always
    assigned when a wrapper exists ([None] does not occur). *)
Definition channel_send3 (tr : transport) (cell : option jval) (c : channel)
    (message level : string) (alert_type : option string) : list delivery * bool :=
  let call_cell :=
    match cell with
    | Some u => wechat_send tr u message level
    | None => ([], false)
    end in
  match c with
  | ChSiteWrapper _ =>
      if is_type "site" alert_type || is_none alert_type then call_cell else ([], false)
  | ChProcessWrapper _ =>
      if is_type "process" alert_type || is_none alert_type then call_cell else ([], false)
  | ChEmail e => email_send tr e message level alert_type
  | ChWechat _ => ([], false)
  end.

(** The call in the loop of [MultiAlerter.send_alert], chosen by the
    member's signature. *)
Definition member_send (tr : transport) (cell : option jval) (c : channel)
    (message level : string) (alert_type : option string) : list delivery * bool :=
  if takes_alert_type c then channel_send3 tr cell c message level alert_type
  else channel_send2 tr c message level.

(** [MultiAlerter.send_alert(message, level, alert_type)]. *)
Definition multi_send (tr : transport) (m : multi_alerter) (message level : string)
    (alert_type : option string) : list delivery * bool :=
  fold_left (fun '(ds, success) c =>
               let '(d, ok) := member_send tr (original_send_alert m) c message level alert_type in
               (ds ++ d, if ok then true else success))
            (alerters m) ([], false).

Definition config := gmap string jval.

(** [config.get(k, True)] tested for truth. *)
Definition enabled (cfg : config) (k : string) : bool := py_truthy (default (JBool true) (cfg !! k)).

(** [config.get(k)]. *)
Definition cfg_get (cfg : config) (k : string) : jval := default JNull (cfg !! k).

Definition required_email_params : list string :=
  ["smtp_server"; "smtp_port"; "sender_email"; "sender_password"; "receiver_email"].

(** [create_alerter(config)]: the members in the order they are added,
    and the final content of the cell [original_send_alert]. *)
Definition create_alerter (cfg : config) : multi_alerter :=
  let '(chs, cell) := ([], None) in
  let '(chs, cell) :=
    match cfg !! "wechat_webhook_url" with
    | Some u => if enabled cfg "enable_wechat_alert" then (chs ++ [ChWechat u], cell) else (chs, cell)
    | None => (chs, cell)
    end in
  let '(chs, cell) :=
    match cfg !! "site_wechat_webhook_url" with
    | Some u =>
        if enabled cfg "enable_site_wechat_alert" then (chs ++ [ChSiteWrapper u], Some u)
        else (chs, cell)
    | None => (chs, cell)
    end in
  let '(chs, cell) :=
    match cfg !! "process_wechat_webhook_url" with
    | Some u =>
        if enabled cfg "enable_process_wechat_alert" then (chs ++ [ChProcessWrapper u], Some u)
        else (chs, cell)
    | None => (chs, cell)
    end in
  let chs :=
    if forallb (fun k => bool_decide (is_Some (cfg !! k))) required_email_params
       && enabled cfg "enable_email_alert"
    then chs ++ [ChEmail (EmailAlerter_init (cfg_get cfg "smtp_server") (cfg_get cfg "smtp_port")
                   (cfg_get cfg "sender_email") (cfg_get cfg "sender_password")
                   (cfg_get cfg "receiver_email") (cfg_get cfg "site_receiver_email")
                   (cfg_get cfg "process_receiver_email"))]
    else chs in
  mk_multi_alerter chs cell.

Definition is_webhook (d : delivery) : bool :=
  match d with WebhookPost _ _ => true | _ => false end.

(** [','.join(emails)]. *)
Fixpoint join_comma (l : list ustr) : ustr :=
  match l with
  | [] => []
  | [x] => x
  | x :: r => x ++ 44 :: join_comma r
  end.

Definition webhooks (ds : list delivery) : list delivery := List.filter is_webhook ds.

End Alerting.

Module AlertingProofs.
Import PyText Alerting.

(** ** White space *)

Lemma lstrip_split (s : ustr) :
  exists p, s = p ++ lstrip s /\ Forall (fun c => py_isspace c = true) p.
Proof.
  induction s as [|c s IH]; simpl; [exists []; done|].
  destruct (py_isspace c) eqn:Hc.
  - destruct IH as [p [Hp Hf]]. exists (c :: p). simpl. rewrite <- Hp. split; [done|by constructor].
  - exists []. done.
Qed.

Lemma rstrip_split (s : ustr) :
  exists q, s = rstrip s ++ q /\ Forall (fun c => py_isspace c = true) q.
Proof.
  destruct (lstrip_split (rev s)) as [p [Hp Hf]]. exists (rev p). unfold rstrip. split.
  - rewrite <- rev_app_distr, <- Hp, rev_involutive. done.
  - by apply Forall_rev.
Qed.

Lemma strip_split (s : ustr) :
  exists p q, s = p ++ strip s ++ q /\
    Forall (fun c => py_isspace c = true) p /\ Forall (fun c => py_isspace c = true) q.
Proof.
  destruct (lstrip_split s) as [p [Hp Hfp]]. destruct (rstrip_split (lstrip s)) as [q [Hq Hfq]].
  exists p, q. unfold strip. rewrite <- Hq. done.
Qed.

Lemma lstrip_head_ok (s : ustr) : py_isspace (default 0 (head (lstrip s))) = false.
Proof. induction s as [|c s IH]; simpl; [done|]. destruct (py_isspace c) eqn:Hc; simpl; done. Qed.

Lemma rstrip_last_ok (s : ustr) : py_isspace (default 0 (last (rstrip s))) = false.
Proof.
  unfold rstrip. pose proof (lstrip_head_ok (rev s)) as H.
  destruct (lstrip (rev s)) as [|c r]; [done|]. simpl in H |- *.
  rewrite last_app. simpl. done.
Qed.

Lemma rstrip_head (s : ustr) :
  py_isspace (default 0 (head s)) = false -> py_isspace (default 0 (head (rstrip s))) = false.
Proof.
  intros H. destruct (rstrip_split s) as [q [Hq _]].
  destruct (rstrip s) as [|c r] eqn:E; [done|]. rewrite Hq in H. done.
Qed.

Lemma strip_idem (s : ustr) : strip (strip s) = strip s.
Proof.
  assert (Hh : py_isspace (default 0 (head (strip s))) = false)
    by (apply rstrip_head, lstrip_head_ok).
  assert (Hl : py_isspace (default 0 (last (strip s))) = false) by apply rstrip_last_ok.
  unfold strip at 1. rewrite (TargetProofs.lstrip_head _ Hh). by apply TargetProofs.rstrip_last.
Qed.

Lemma contains_app (c : Z) (l1 l2 : ustr) : contains c (l1 ++ l2) = contains c l1 || contains c l2.
Proof. unfold contains. apply existsb_app. Qed.

Lemma contains_cons (c a : Z) (l : ustr) : contains c (a :: l) = (c =? a) || contains c l.
Proof. reflexivity. Qed.

Lemma contains_spaces (c : Z) (p : ustr) :
  py_isspace c = false -> Forall (fun c => py_isspace c = true) p -> contains c p = false.
Proof.
  intros Hc. induction 1 as [|d p Hd _ IH]; [done|]. simpl. rewrite IH.
  destruct (Z.eqb_spec c d); [congruence|done].
Qed.

(** Stripping keeps every character that is not white space. *)
Lemma contains_strip (c : Z) (s : ustr) :
  py_isspace c = false -> contains c (strip s) = contains c s.
Proof.
  intros Hc. destruct (strip_split s) as (p & q & Hs & Hp & Hq).
  rewrite Hs at 2. rewrite !contains_app, (contains_spaces c p), (contains_spaces c q) by done.
  by rewrite orb_false_r.
Qed.

Lemma contains_strip_false (c : Z) (s : ustr) :
  contains c s = false -> contains c (strip s) = false.
Proof.
  intros H. destruct (strip_split s) as (p & q & Hs & _ & _). rewrite Hs in H.
  rewrite !contains_app in H. apply orb_false_iff in H as [_ H]. apply orb_false_iff in H as [H _].
  exact H.
Qed.

Lemma valid_strip (s : ustr) : valid_address (strip s) = valid_address s.
Proof. unfold valid_address. rewrite !contains_strip by reflexivity. done. Qed.

(** ** Separators *)

Lemma split_on_parts_keep (sep d : Z) (s : ustr) :
  (d = sep \/ contains d s = false) -> Forall (fun w => contains d w = false) (split_on sep s).
Proof.
  induction s as [|c s IH]; simpl; [repeat constructor|].
  intros H.
  destruct (Z.eqb_spec c sep) as [->|Hne].
  - constructor; [done|]. apply IH. destruct H as [->|H]; [by left|].
    apply orb_false_iff in H as [_ H]. by right.
  - assert (Hd : (d =? c) = false).
    { destruct H as [->|H]; [by apply Z.eqb_neq|]. by apply orb_false_iff in H as [H _]. }
    assert (IH' : Forall (fun w => contains d w = false) (split_on sep s)).
    { apply IH. destruct H as [->|H]; [by left|]. apply orb_false_iff in H as [_ H]. by right. }
    destruct (split_on sep s) as [|w ws].
    + constructor; [simpl; by rewrite Hd|constructor].
    + inversion IH'; subst. constructor; [|done]. simpl. by rewrite Hd.
Qed.

Lemma replace_char_gone (a b : Z) (s : ustr) : a <> b -> contains a (replace_char a b s) = false.
Proof.
  intros Hab. induction s as [|c s IH]; simpl; [done|]. rewrite IH.
  destruct (Z.eqb_spec c a) as [->|Hne].
  - destruct (Z.eqb_spec a b); [congruence|done].
  - destruct (Z.eqb_spec a c); [congruence|done].
Qed.

Lemma replace_char_id (a b : Z) (s : ustr) : contains a s = false -> replace_char a b s = s.
Proof.
  induction s as [|c s IH]; simpl; [done|]. intros H. apply orb_false_iff in H as [Hc H].
  rewrite IH by done. destruct (Z.eqb_spec c a); [subst; rewrite Z.eqb_refl in Hc; done|done].
Qed.

Lemma split_on_nonnil (sep : Z) (s : ustr) : split_on sep s <> [].
Proof. destruct s as [|c s]; simpl; [done|]. destruct (c =? sep); [done|]. by destruct (split_on sep s). Qed.

Lemma split_on_join (l : list ustr) :
  l <> [] -> Forall (fun w => contains 44 w = false) l -> split_on 44 (join_comma l) = l.
Proof.
  intros Hne Hl. induction Hl as [|x l Hx Hl IH]; [done|].
  assert (Hsx : forall r, split_on 44 (x ++ r) =
                  match split_on 44 r with w :: ws => (x ++ w) :: ws | [] => [x] end).
  { clear -Hx. induction x as [|c x IHx]; intros r; simpl.
    - destruct (split_on 44 r) eqn:E; [by apply split_on_nonnil in E|done].
    - rewrite contains_cons in Hx. apply orb_false_iff in Hx as [Hc Hx]. rewrite (proj2 (Z.eqb_neq c 44)).
      + rewrite IHx by done. destruct (split_on 44 r); done.
      + intros ->. done. }
  destruct l as [|y l].
  - simpl. specialize (Hsx []). rewrite app_nil_r in Hsx. simpl in Hsx.
    rewrite app_nil_r in Hsx. exact Hsx.
  - change (join_comma (x :: y :: l)) with (x ++ 44 :: join_comma (y :: l)).
    rewrite Hsx.
    change (split_on 44 (44 :: join_comma (y :: l))) with ([] :: split_on 44 (join_comma (y :: l))).
    rewrite IH by done. rewrite app_nil_r. done.
Qed.

Lemma contains_join (c : Z) (l : list ustr) :
  c <> 44 -> Forall (fun w => contains c w = false) l -> contains c (join_comma l) = false.
Proof.
  intros Hc. induction 1 as [|x l Hx Hl IH]; [done|].
  destruct l as [|y l]; [done|].
  change (join_comma (x :: y :: l)) with (x ++ 44 :: join_comma (y :: l)).
  rewrite contains_app, Hx, contains_cons, IH. destruct (Z.eqb_spec c 44); [congruence|done].
Qed.

Lemma filter_all {A} (f : A -> bool) (l : list A) :
  Forall (fun x => f x = true) l -> List.filter f l = l.
Proof. induction 1 as [|x l Hx _ IH]; simpl; [done|]. by rewrite Hx, IH. Qed.

Lemma valid_nonempty (a : ustr) : valid_address a = true -> nonempty a = true.
Proof. by destruct a. Qed.

(** ** Receiver lists *)

Lemma process_email_list_props (v : jval) :
  Forall (fun a => valid_address a = true /\ strip a = a /\
                   forall s, v = JStr s -> contains 44 a = false /\ contains 59 a = false)
    (process_email_list v).
Proof.
  apply Forall_forall. intros a Ha. destruct v as [| | |s|l]; simpl in Ha;
    try (apply not_elem_of_nil in Ha; contradiction).
  - apply list_elem_of_In in Ha. destruct (contains 44 s || contains 59 s) eqn:Hsep.
    + apply List.filter_In in Ha as [Ha Hv]. apply List.filter_In in Ha as [Ha _].
      apply in_map_iff in Ha as [w [<- Hw]].
      split; [done|]. split; [apply strip_idem|]. intros s' [= <-].
      apply list_elem_of_In in Hw. split; apply contains_strip_false.
      * pose proof (split_on_parts_keep 44 44 (replace_char 59 44 s) (or_introl eq_refl)) as HF.
        rewrite Forall_forall in HF. by apply HF.
      * assert (H59 : contains 59 (replace_char 59 44 s) = false) by (apply replace_char_gone; lia).
        pose proof (split_on_parts_keep 44 59 (replace_char 59 44 s) (or_intror H59)) as HF.
        rewrite Forall_forall in HF. by apply HF.
    + destruct (valid_address s) eqn:Hv; [|done]. destruct Ha as [<-|[]].
      rewrite valid_strip, strip_idem. split; [done|]. split; [done|]. intros s' [= <-].
      apply orb_false_iff in Hsep as [H44 H59]. split; by apply contains_strip_false.
  - apply list_elem_of_In, in_flat_map in Ha as [e [_ He]].
    destruct e as [| | |s|]; simpl in He; try contradiction.
    destruct (valid_address s) eqn:Hv; [|contradiction]. destruct He as [<-|[]].
    rewrite valid_strip, strip_idem. split; [done|]. split; [done|]. discriminate.
Qed.

Lemma process_email_list_of_clean (l : list ustr) :
  Forall (fun a => valid_address a = true /\ strip a = a) l ->
  process_email_list (JList (map JStr l)) = l.
Proof.
  induction 1 as [|a l [Hv Hs] _ IH]; [done|]. simpl. rewrite Hv, Hs. simpl. f_equal. exact IH.
Qed.

(** X4: every address [_process_email_list] returns contains ['@'] and
    ['.'] and has no surrounding white space; from a string setting, it
    also contains no [','] and no [';']. *)
Theorem process_email_list_addresses (v : jval) (a : ustr) :
  a ∈ process_email_list v ->
  valid_address a = true /\ strip a = a /\
  (forall s, v = JStr s -> contains 44 a = false /\ contains 59 a = false).
Proof.
  intros Ha. pose proof (process_email_list_props v) as HF. rewrite Forall_forall in HF. by apply HF.
Qed.

Lemma process_email_list_addresses_witness :
  utf8 "ops@example.com" ∈ process_email_list (JStr (utf8 " ops@example.com ; bad-address,dev@example.cn ")) /\
  (valid_address (utf8 "ops@example.com") = true /\ strip (utf8 "ops@example.com") = utf8 "ops@example.com" /\
   (forall s, JStr (utf8 " ops@example.com ; bad-address,dev@example.cn ") = JStr s ->
      contains 44 (utf8 "ops@example.com") = false /\ contains 59 (utf8 "ops@example.com") = false)).
Proof.
  split; [vm_compute; left|].
  refine (process_email_list_addresses (JStr (utf8 " ops@example.com ; bad-address,dev@example.cn "))
            (utf8 "ops@example.com") _).
  vm_compute. left.
Defined.

(** X5: the receiver list is a normal form: given back as a list it is
    returned unchanged, and a list read from a string setting, joined
    with [','] and read again, is returned unchanged. *)
Theorem process_email_list_normal_form (v : jval) (s : ustr) :
  process_email_list (JList (map JStr (process_email_list v))) = process_email_list v /\
  process_email_list (JStr (join_comma (process_email_list (JStr s)))) = process_email_list (JStr s).
Proof.
  split.
  - apply process_email_list_of_clean. eapply Forall_impl; [apply process_email_list_props|].
    simpl. tauto.
  - pose proof (process_email_list_props (JStr s)) as HF.
    assert (HF' : Forall (fun a => valid_address a = true /\ strip a = a /\
                                  contains 44 a = false /\ contains 59 a = false)
                    (process_email_list (JStr s))).
    { eapply Forall_impl; [exact HF|]. intros a (H1 & H2 & H3). specialize (H3 s eq_refl). tauto. }
    clear HF. revert HF'. generalize (process_email_list (JStr s)) as l. intros l Hl.
    destruct l as [|a [|b r]].
    + reflexivity.
    + inversion Hl as [|? ? (Hv & Hs & H44 & H59) _]; subst. simpl.
      rewrite H44, H59, Hv. simpl. by rewrite Hs.
    + assert (Hj44 : contains 44 (join_comma (a :: b :: r)) = true).
      { change (join_comma (a :: b :: r)) with (a ++ 44 :: join_comma (b :: r)).
        rewrite contains_app, contains_cons, Z.eqb_refl. by rewrite orb_true_r. }
      assert (Hj59 : contains 59 (join_comma (a :: b :: r)) = false).
      { apply contains_join; [lia|]. eapply Forall_impl; [exact Hl|]. simpl. tauto. }
      unfold process_email_list. rewrite Hj44. simpl orb. cbv zeta.
      rewrite replace_char_id by done.
      rewrite split_on_join by (done || (eapply Forall_impl; [exact Hl|]; simpl; tauto)).
      rewrite (map_ext_Forall strip id) by (eapply Forall_impl; [exact Hl|]; simpl; tauto).
      rewrite map_id. rewrite (filter_all nonempty).
      2:{ eapply Forall_impl; [exact Hl|]. simpl. intros x Hx. apply valid_nonempty. tauto. }
      apply filter_all. eapply Forall_impl; [exact Hl|]. simpl. tauto.
Qed.

(** ** Sending *)

Lemma email_fold (tr : transport) (subject body : string) (rs : list ustr)
    (ds : list delivery) (ok : bool) :
  fold_left (fun '(ds, success) receiver =>
               (ds ++ [MailSend receiver subject body],
                if smtp_ok tr receiver then true else success)) rs (ds, ok) =
  (ds ++ map (fun a => MailSend a subject body) rs, ok || existsb (smtp_ok tr) rs).
Proof.
  revert ds ok. induction rs as [|r rs IH]; intros ds ok; simpl.
  - by rewrite app_nil_r, orb_false_r.
  - rewrite IH, <- app_assoc. simpl. f_equal. by destruct (smtp_ok tr r), ok.
Qed.



Lemma multi_fold (tr : transport) (cell : option jval) (chs : list channel)
    (message level : string) (alert_type : option string) (ds : list delivery) (ok : bool) :
  fold_left (fun '(ds, success) c =>
               let '(d, ok) := member_send tr cell c message level alert_type in
               (ds ++ d, if ok then true else success)) chs (ds, ok) =
  (ds ++ concat (map (fun c => (member_send tr cell c message level alert_type).1) chs),
   ok || existsb (fun c => (member_send tr cell c message level alert_type).2) chs).
Proof.
  revert ds ok. induction chs as [|c chs IH]; intros ds ok; simpl.
  - by rewrite app_nil_r, orb_false_r.
  - destruct (member_send tr cell c message level alert_type) as [d b]. simpl.
    rewrite IH, <- app_assoc. f_equal. by destruct b, ok.
Qed.

(** X7: [MultiAlerter.send_alert] calls every member once, in order, with
    or without [alert_type] according to its signature, whatever the
    earlier members returned, and reports success iff one of them
    succeeded. *)
Theorem multi_send_all_members (tr : transport) (m : multi_alerter) (message level : string)
    (alert_type : option string) :
  multi_send tr m message level alert_type =
    (concat (map (fun c => (member_send tr (original_send_alert m) c message level alert_type).1)
                 (alerters m)),
     existsb (fun c => (member_send tr (original_send_alert m) c message level alert_type).2)
             (alerters m)).
Proof. unfold multi_send. rewrite multi_fold. done. Qed.

Lemma webhooks_app (l1 l2 : list delivery) : webhooks (l1 ++ l2) = webhooks l1 ++ webhooks l2.
Proof. apply List.filter_app. Qed.

Lemma webhooks_mails (l : list ustr) (subject body : string) :
  webhooks (map (fun a => MailSend a subject body) l) = [].
Proof. induction l; [done|]. simpl. done. Qed.

Lemma webhooks_email (tr : transport) (e : email_alerter) (message level : string)
    (alert_type : option string) :
  webhooks (email_send tr e message level alert_type).1 = [].
Proof.
  unfold email_send.
  destruct (if is_type "site" alert_type then _ else _) as [rs p].
  destruct rs as [|r rs]; [done|]. rewrite email_fold. apply webhooks_mails.
Qed.

Lemma elem_of_webhooks (d : delivery) (ds : list delivery) :
  is_webhook d = true -> d ∈ ds -> d ∈ webhooks ds.
Proof.
  intros Hd H. apply list_elem_of_In. apply list_elem_of_In in H. apply List.filter_In. done.
Qed.

(** The members and cell of [create_alerter] for a configuration with no
    plain WeChat webhook and the site webhook enabled. *)
Lemma create_alerter_site (cfg : config) (site : jval) :
  cfg !! "wechat_webhook_url"%string = None ->
  cfg !! "site_wechat_webhook_url"%string = Some site ->
  enabled cfg "enable_site_wechat_alert" = true ->
  exists email,
    create_alerter cfg =
      match cfg !! "process_wechat_webhook_url"%string with
      | Some proc =>
          if enabled cfg "enable_process_wechat_alert"
          then mk_multi_alerter ([ChSiteWrapper site; ChProcessWrapper proc] ++ email) (Some proc)
          else mk_multi_alerter ([ChSiteWrapper site] ++ email) (Some site)
      | None => mk_multi_alerter ([ChSiteWrapper site] ++ email) (Some site)
      end /\
    Forall (fun c => exists e, c = ChEmail e) email.
Proof.
  intros Hw Hs Hen. unfold create_alerter. rewrite Hw, Hs, Hen. simpl.
  destruct (cfg !! "process_wechat_webhook_url"%string) as [proc|];
    [destruct (enabled cfg "enable_process_wechat_alert")|]; simpl;
    (destruct (_ && _); [eexists; split; [reflexivity|]
                         |exists []; split; [rewrite ?app_nil_r; reflexivity|]]); repeat econstructor.
Qed.

Lemma webhooks_email_members (tr : transport) (cell : option jval) (email : list channel)
    (message level : string) (alert_type : option string) :
  Forall (fun c => exists e, c = ChEmail e) email ->
  webhooks (concat (map (fun c => (member_send tr cell c message level alert_type).1) email)) = [].
Proof.
  induction 1 as [|c l [e ->] _ IH]; [done|]. simpl.
  rewrite webhooks_app, IH, app_nil_r. apply webhooks_email.
Qed.

(** X8: with both the site and the process WeChat webhooks configured and
    enabled (and no plain WeChat webhook), both wrappers call the process
    webhook's sender: they share the closure cell [original_send_alert],
    last assigned to the process alerter's [send_alert].  A 'site' alert
    is posted once to the process webhook, a 'process' alert once, an
    alert without type twice, and nothing ever reaches the site webhook
    (when the two URLs differ). *)
Theorem create_alerter_shared_cell (cfg : config) (site proc : ustr) (tr : transport)
    (message level : string) (alert_type : option string) :
  cfg !! "wechat_webhook_url"%string = None ->
  cfg !! "site_wechat_webhook_url"%string = Some (JStr site) ->
  enabled cfg "enable_site_wechat_alert" = true ->
  cfg !! "process_wechat_webhook_url"%string = Some (JStr proc) ->
  enabled cfg "enable_process_wechat_alert" = true ->
  let post := WebhookPost proc (wechat_content message level) in
  webhooks (multi_send tr (create_alerter cfg) message level alert_type).1 =
    (if is_type "site" alert_type || is_none alert_type then [post] else []) ++
    (if is_type "process" alert_type || is_none alert_type then [post] else []) /\
  (site <> proc -> forall content,
     WebhookPost site content ∉ (multi_send tr (create_alerter cfg) message level alert_type).1).
Proof.
  intros Hw Hs Hse Hp Hpe post.
  destruct (create_alerter_site cfg (JStr site) Hw Hs Hse) as [email [Hc He]].
  rewrite Hp, Hpe in Hc.
  assert (Hwh : webhooks (multi_send tr (create_alerter cfg) message level alert_type).1 =
    (if is_type "site" alert_type || is_none alert_type then [post] else []) ++
    (if is_type "process" alert_type || is_none alert_type then [post] else [])).
  { rewrite multi_send_all_members, Hc. simpl.
    rewrite !webhooks_app, (webhooks_email_members tr (Some (JStr proc)) email message level alert_type He).
    rewrite app_nil_r. unfold member_send, channel_send3. simpl.
    destruct (is_type "site" alert_type || is_none alert_type),
             (is_type "process" alert_type || is_none alert_type); reflexivity. }
  split; [exact Hwh|].
  intros Hne content Hin. apply elem_of_webhooks in Hin; [|done]. rewrite Hwh in Hin.
  apply elem_of_app in Hin as [Hin|Hin]; case_match; try (apply not_elem_of_nil in Hin; done);
    apply list_elem_of_singleton in Hin; unfold post in Hin; congruence.
Qed.

Definition site_hook : ustr := utf8 "https://qyapi.weixin.qq.com/cgi-bin/webhook/send?key=site".
Definition process_hook : ustr := utf8 "https://qyapi.weixin.qq.com/cgi-bin/webhook/send?key=proc".

(** Settings with the two dedicated webhooks, and with the site one only. *)
Definition two_hooks_config : config :=
  <[ "site_wechat_webhook_url"%string := JStr site_hook ]>
    (<[ "process_wechat_webhook_url"%string := JStr process_hook ]> ∅).
Definition site_hook_config : config := {[ "site_wechat_webhook_url"%string := JStr site_hook ]}.

Definition all_ok : transport := mk_transport (fun _ => true) (fun _ => true).

Lemma create_alerter_shared_cell_witness :
  (two_hooks_config !! "wechat_webhook_url"%string = None /\
   two_hooks_config !! "site_wechat_webhook_url"%string = Some (JStr site_hook) /\
   enabled two_hooks_config "enable_site_wechat_alert" = true /\
   two_hooks_config !! "process_wechat_webhook_url"%string = Some (JStr process_hook) /\
   enabled two_hooks_config "enable_process_wechat_alert" = true) /\
  let post := WebhookPost process_hook (wechat_content "URL不健康" "warning") in
  webhooks (multi_send all_ok (create_alerter two_hooks_config) "URL不健康" "warning"
              (Some "site"%string)).1 =
    (if is_type "site" (Some "site"%string) || is_none (Some "site"%string) then [post] else []) ++
    (if is_type "process" (Some "site"%string) || is_none (Some "site"%string) then [post] else []) /\
  (site_hook <> process_hook -> forall content,
     WebhookPost site_hook content ∉
       (multi_send all_ok (create_alerter two_hooks_config) "URL不健康" "warning"
          (Some "site"%string)).1).
Proof.
  split; [repeat split; vm_compute; reflexivity|].
  refine (create_alerter_shared_cell two_hooks_config site_hook process_hook all_ok
            "URL不健康" "warning" (Some "site"%string) _ _ _ _ _); vm_compute; reflexivity.
Defined.

(** X9: with the site WeChat webhook configured and enabled and no process
    webhook (and no plain one), site alerts and alerts without type are
    posted once to the site webhook, and process alerts to no webhook. *)
Theorem create_alerter_site_only (cfg : config) (site : ustr) (tr : transport)
    (message level : string) (alert_type : option string) :
  cfg !! "wechat_webhook_url"%string = None ->
  cfg !! "site_wechat_webhook_url"%string = Some (JStr site) ->
  enabled cfg "enable_site_wechat_alert" = true ->
  cfg !! "process_wechat_webhook_url"%string = None ->
  webhooks (multi_send tr (create_alerter cfg) message level alert_type).1 =
    if is_type "site" alert_type || is_none alert_type
    then [WebhookPost site (wechat_content message level)] else [].
Proof.
  intros Hw Hs Hse Hp.
  destruct (create_alerter_site cfg (JStr site) Hw Hs Hse) as [email [Hc He]].
  rewrite Hp in Hc. rewrite multi_send_all_members, Hc. simpl.
  rewrite !webhooks_app, (webhooks_email_members tr (Some (JStr site)) email message level alert_type He).
  rewrite app_nil_r. unfold member_send, channel_send3. simpl.
  destruct (is_type "site" alert_type || is_none alert_type); reflexivity.
Qed.

Lemma create_alerter_site_only_witness :
  (site_hook_config !! "wechat_webhook_url"%string = None /\
   site_hook_config !! "site_wechat_webhook_url"%string = Some (JStr site_hook) /\
   enabled site_hook_config "enable_site_wechat_alert" = true /\
   site_hook_config !! "process_wechat_webhook_url"%string = None) /\
  webhooks (multi_send all_ok (create_alerter site_hook_config) "URL不健康" "warning" None).1 =
    (if is_type "site" None || is_none None
     then [WebhookPost site_hook (wechat_content "URL不健康" "warning")] else []).
Proof.
  split; [repeat split; vm_compute; reflexivity|].
  refine (create_alerter_site_only site_hook_config site_hook all_ok "URL不健康" "warning" None
            _ _ _ _); vm_compute; reflexivity.
Defined.

End AlertingProofs.

(** * Alert text of a site check (alerter.format_url_alert_message) *)
Module AlertText.
Import URLMonitor DateTime.

Definition nl : string := String (ascii_of_nat 10) EmptyString.

Fixpoint pos_digits (fuel : nat) (n : Z) (acc : string) : string :=
  match fuel with
  | O => acc
  | S f =>
      if n <? 10 then String (digit_char n) acc
      else pos_digits f (n / 10) (String (digit_char (n mod 10)) acc)
  end.

(** [str(n)] for an int. *)
Definition z_to_dec (z : Z) : string :=
  if z <? 0 then String "-"%char (pos_digits (S (Z.to_nat (Z.log2 (- z)))) (- z) EmptyString)
  else pos_digits (S (Z.to_nat (Z.log2 z))) z EmptyString.

(** [f'{response_time:.6f}'] for a latency of [t >= 0] microseconds
    ([response.elapsed.total_seconds()] is [t / 10**6], and six decimals
    print its microseconds back). *)
Definition seconds_text (t : Z) : string :=
  (z_to_dec (t / 1000000) ++ "." ++ print_digits 6 (t mod 1000000))%string.

Local Open Scope string_scope.

(** The [status_text] line:
    [status_code != 200 or error or (response_time and response_time > 5)];
    latencies in microseconds. *)
Definition status_text (status_code response_time : option Z) (error : option string) : string :=
  if negb (match status_code with Some sc => (sc =? 200)%Z | None => false end)
     || (match error with Some e => negb (String.eqb e "") | None => false end)
     || (match response_time with Some t => negb (t =? 0)%Z && (5000000 <? t)%Z | None => false end)
  then "🔴 不健康" else "✅ 健康".

(** [format_url_alert_message(url, waf_info, status_code, response_time,
    error, is_recovery)], [current_time] being [time.strftime(...)]. *)
Definition format_url_alert_message (current_time url waf_info : string)
    (status_code response_time : option Z) (error : option string) (is_recovery : bool) : string :=
  let title := if is_recovery then "站点监控通知 (已恢复正常)" else "站点监控告警" in
  let response_time_text :=
    match response_time with None => "N/A" | Some t => seconds_text t ++ "s" end in
  let status_code_text := match status_code with None => "N/A" | Some sc => z_to_dec sc end in
  let message :=
    "## " ++ title ++ " - " ++ current_time ++ nl ++
    "**网站URL**：" ++ url ++ nl ++
    "**所在WAF**：" ++ waf_info ++ nl ++
    "**状态码**：" ++ status_code_text ++ nl ++
    "**响应时延**：" ++ response_time_text ++ nl ++
    "**状态**：" ++ status_text status_code response_time error in
  match error with
  | Some e => if negb (String.eqb e "") then message ++ (nl ++ "**异常信息**：" ++ e) else message
  | None => message
  end.

(** The message [check_health] logs and sends for an unhealthy check:
    [format_url_alert_message(url, waf_info, status_code, response_time)]
    for a response, [format_url_alert_message(url, waf_info, error=str(e))]
    for an exception, with [waf_info = self.url_to_waf.get(url, "未知WAF")]. *)
Definition unhealthy_message (current_time url : string) (url_to_waf : gmap string string)
    (o : outcome) : string :=
  let waf_info := default "未知WAF" (url_to_waf !! url) in
  match o with
  | Response sc rt => format_url_alert_message current_time url waf_info (Some sc) (Some rt) None false
  | Raised e => format_url_alert_message current_time url waf_info None None (Some e) false
  end.

Example unhealthy_message_example :
  unhealthy_message "2024-05-01 12:00:00" "https://a.example.com" ∅ (Response 502 1234567) =
  "## 站点监控告警 - 2024-05-01 12:00:00" ++ nl ++ "**网站URL**：https://a.example.com" ++ nl ++
  "**所在WAF**：未知WAF" ++ nl ++ "**状态码**：502" ++ nl ++ "**响应时延**：1.234567s" ++ nl ++
  "**状态**：🔴 不健康".
Proof. reflexivity. Qed.

End AlertText.

(** * Successive checks of one URL *)
Module CheckSequence.
Import URLMonitor.

(** The checks of one URL in successive cycles; an exception escaping
    [check_health] is re-raised by [future.result()] and ends the run. *)
Fixpoint check_seq (thr timeout : Z) (url : string) (os : list outcome)
    (m : gmap string url_state) : gmap string url_state * list event * option exn :=
  match os with
  | [] => (m, [], None)
  | o :: rest =>
      match check_health thr timeout url o m with
      | (m1, ev1, None) =>
          let '(m2, ev2, r) := check_seq thr timeout url rest m1 in (m2, ev1 ++ ev2, r)
      | (m1, ev1, Some e) => (m1, ev1, Some e)
      end
  end.

End CheckSequence.

(** * Watchdog state file (Watchdog.save_state / Watchdog.load_state) *)
Module WatchdogState.
Import DateTime Watchdog.

(** [{group: process.to_dict() for group, process in self.processes.items()}],
    in the dict's order; [json.dump] then [json.load] give these items back. *)
Definition save_state (procs : gmap string ProcessInfo) : list (string * dict) :=
  map (fun gi => (gi.1, to_dict gi.2)) (map_to_list procs).

(** The loop of [load_state]; a [from_dict] that raises leaves the loop
    (the exception is caught outside it) with the entries loaded so far. *)
Fixpoint load_items (now : datetime) (items : list (string * dict))
    (procs : gmap string ProcessInfo) : gmap string ProcessInfo :=
  match items with
  | [] => procs
  | (g, d) :: rest =>
      match from_dict now d with
      | Some i => load_items now rest (<[g := i]> procs)
      | None => procs
      end
  end.

(** [load_state] from [__init__], where [self.processes] is [{}]. *)
Definition load_state (now : datetime) (items : list (string * dict)) : gmap string ProcessInfo :=
  load_items now items ∅.

(** A record both of whose timestamps are set to valid datetimes. *)
Definition record_ok (i : ProcessInfo) : bool :=
  match last_check_time i, last_start_time i with
  | Some d1, Some d2 => valid_datetime d1 && valid_datetime d2
  | _, _ => false
  end.

End WatchdogState.

(** * One watchdog pass over all groups *)
Module CheckAll.
Import DateTime Watchdog Supervision.

(** [Watchdog.check_all_processes()]: the groups in order, each with the
    environment of its own check. *)
Fixpoint check_all_processes (max_restarts : Z) (passes : list (string * pass_env)) (st : wstate)
  : wstate * list wevent :=
  match passes with
  | [] => (st, [])
  | (g, env) :: rest =>
      let '(st1, ev1) := check_group max_restarts env g st in
      let '(st2, ev2) := check_all_processes max_restarts rest st1 in
      (st2, ev1 ++ ev2)
  end.

Definition wevent_group (e : wevent) : string :=
  match e with RemovePidFile g | SpawnMonitor g | ProcessAlert g _ _ _ => g end.

Definition about (g : string) (e : wevent) : bool := String.eqb (wevent_group e) g.

(** [status in ("已停止", "已停止 - 超过最大重启次数", "已手动停止")], the
    test of the running branch of [check_process]. *)
Definition stopped_like (s : string) : bool :=
  String.eqb s ST_STOPPED || String.eqb s ST_MAX_RESTARTS || String.eqb s ST_MANUAL.

End CheckAll.

Module AlertTextProofs.
Import URLMonitor DateTimeProofs AlertText.

Lemma string_app_assoc (a b c : string) : ((a ++ b) ++ c)%string = (a ++ (b ++ c))%string.
Proof. induction a as [|x a IH]; [reflexivity|]. by rewrite !string_append_cons, IH. Qed.

(** [s] ends with [suf]. *)
Definition ends_with (suf s : string) : Prop := exists pre, s = (pre ++ suf)%string.

Lemma ends_with_refl (s : string) : ends_with s s.
Proof. by exists ""%string. Qed.

Lemma ends_with_app (x suf s : string) : ends_with suf s -> ends_with suf (x ++ s).
Proof. intros [pre ->]. exists (x ++ pre)%string. by rewrite string_app_assoc. Qed.

Ltac ends_with_tac := repeat (apply ends_with_refl || apply ends_with_app).

(** X10: a 200 response that fails the check only by its latency
    (over a non-negative [response_timeout]) is logged and alerted
    with a message whose status line is computed with a fixed 5-second
    bound, not with the timeout: the failure is reported "✅ 健康" whenever the
    latency is at most 5 s. *)
Theorem latency_failure_status_text (timeout rt : Z) (now url : string)
    (url_to_waf : gmap string string) :
  0 <= timeout < rt ->
  failing timeout (Response 200 rt) = true /\
  ends_with ("**状态**：" ++ (if rt <=? 5000000 then "✅ 健康" else "🔴 不健康"))
    (unhealthy_message now url url_to_waf (Response 200 rt)).
Proof.
  intros Ht. split.
  - simpl. apply Z.ltb_lt. lia.
  - assert (Hs : status_text (Some 200) (Some rt) None =
                 if rt <=? 5000000 then "✅ 健康" else "🔴 不健康").
    { unfold status_text. cbn -[Z.eqb Z.ltb].
      destruct (Z.eqb_spec rt 0); [lia|]. destruct (Z.ltb_spec 5000000 rt), (Z.leb_spec rt 5000000);
        try reflexivity; lia. }
    unfold unhealthy_message, format_url_alert_message. cbv beta iota zeta.
    rewrite Hs. ends_with_tac.
Qed.

Lemma latency_failure_status_text_witness :
  0 <= 3000000 < 4000000 /\
  failing 3000000 (Response 200 4000000) = true /\
  ends_with ("**状态**：" ++ (if 4000000 <=? 5000000 then "✅ 健康" else "🔴 不健康"))
    (unhealthy_message "2024-05-01 12:00:00" "https://a.example.com" ∅ (Response 200 4000000)).
Proof.
  split; [lia|].
  apply (latency_failure_status_text 3000000 4000000). lia.
Defined.

(** X11: the message for a request that raised ends with "N/A" for the
    status code and the latency, the status "🔴 不健康", and an
    [**异常信息**] line holding the exception text; that last line is
    missing when the exception's text is empty. *)
Theorem exception_message_tail (e now url : string) (url_to_waf : gmap string string) :
  ends_with ("**状态码**：N/A" ++ nl ++ "**响应时延**：N/A" ++ nl ++ "**状态**：🔴 不健康" ++
             (if String.eqb e "" then "" else nl ++ "**异常信息**：" ++ e))
    (unhealthy_message now url url_to_waf (Raised e)).
Proof.
  assert (Hs : status_text None None (Some e) = "🔴 不健康") by reflexivity.
  unfold unhealthy_message, format_url_alert_message. cbv beta iota zeta.
  rewrite Hs. destruct (String.eqb e "") eqn:He; cbn [negb].
  - rewrite string_append_nil. ends_with_tac.
  - rewrite !string_app_assoc. ends_with_tac.
Qed.

End AlertTextProofs.

Module CheckSequenceProofs.
Import URLMonitor HealthProofs CheckSequence.

Lemma div_succ (thr c : Z) :
  1 <= thr -> (c + 1) / thr = c / thr + (if Z.eqb ((c + 1) mod thr) 0 then 1 else 0).
Proof.
  intros Hthr. pose proof (Z.div_mod c thr ltac:(lia)) as Hd.
  pose proof (Z.mod_pos_bound c thr ltac:(lia)) as Hb.
  destruct (Z.eq_dec (c mod thr) (thr - 1)) as [E|E].
  - assert (Hq : (c + 1) / thr = c / thr + 1) by (symmetry; apply (Z.div_unique _ _ _ 0); nia).
    assert (Hr : (c + 1) mod thr = 0) by (symmetry; apply (Z.mod_unique _ _ (c / thr + 1)); nia).
    rewrite Hq, Hr. reflexivity.
  - assert (Hq : (c + 1) / thr = c / thr)
      by (symmetry; apply (Z.div_unique _ _ _ (c mod thr + 1)); nia).
    assert (Hr : (c + 1) mod thr = c mod thr + 1)
      by (symmetry; apply (Z.mod_unique _ _ (c / thr)); nia).
    rewrite Hq, Hr. destruct (Z.eqb_spec (c mod thr + 1) 0); [lia|]. lia.
Qed.

(** One failing check on a known target, with a positive threshold. *)
Lemma check_health_failing_step (thr timeout : Z) (url : string) (o : outcome)
    (m : gmap string url_state) (s : url_state) :
  1 <= thr -> m !! url = Some s -> failing timeout o = true ->
  exists evs,
    check_health thr timeout url o m =
      (<[url := mk_url_state (count s + 1)
                 (if Z.eqb ((count s + 1) mod thr) 0 then true else alerted s)]> m, evs, None) /\
    alerts evs = (if Z.eqb ((count s + 1) mod thr) 0 then [Alert UrlAlert "warning" "site"] else []).
Proof.
  intros Hthr Hs Hf. destruct (fail_update_known thr url m s Hthr Hs) as [w Hw].
  pose proof (alerts_writes _ _ _ _ _ _ Hw) as Haw.
  destruct o as [sc rt | err]; simpl in Hf.
  - unfold check_health. rewrite Hf, Hw. eexists; split; [reflexivity|].
    rewrite alerts_app, Haw, alerts_fail_report. done.
  - unfold check_health, except_path. rewrite Hw. eexists; split; [reflexivity|].
    rewrite !alerts_app, Haw, alerts_fail_report. done.
Qed.

(** X12: [k] successive failing checks of a known target, with a threshold
    [thr >= 1] and a count [c] before them, end with count [c + k], raise
    nothing, send one 'site' warning per multiple of [thr] crossed
    ([(c + k) / thr - c / thr] alerts), and leave [alerted] set if it was
    set or if at least one alert was sent. *)
Theorem check_seq_failures (thr timeout : Z) (url : string) (os : list outcome)
    (m : gmap string url_state) (s : url_state) :
  1 <= thr -> m !! url = Some s -> Forall (fun o => failing timeout o = true) os ->
  let c := count s in
  let k := Z.of_nat (length os) in
  let '(m', evs, r) := check_seq thr timeout url os m in
  m' = <[url := mk_url_state (c + k) (alerted s || (c / thr <? (c + k) / thr))]> m /\
  alerts evs = repeat (Alert UrlAlert "warning" "site") (Z.to_nat ((c + k) / thr - c / thr)) /\
  r = None.
Proof.
  intros Hthr. revert m s. induction os as [|o os IH]; intros m s Hs Hf; cbv zeta.
  - cbn [check_seq length Z.of_nat]. rewrite Z.add_0_r, Z.ltb_irrefl, orb_false_r, Z.sub_diag.
    split; [|done]. rewrite insert_id; [done|]. rewrite Hs. by destruct s.
  - inversion Hf as [|? ? Ho Hf']; subst.
    destruct (check_health_failing_step thr timeout url o m s Hthr Hs Ho) as [ev1 [Hc Ha]].
    cbn [check_seq]. rewrite Hc.
    set (na := Z.eqb ((count s + 1) mod thr) 0) in *.
    set (s1 := mk_url_state (count s + 1) (if na then true else alerted s)).
    specialize (IH (<[url := s1]> m) s1 (lookup_insert_eq _ _ _) Hf'). cbv zeta in IH.
    destruct (check_seq thr timeout url os (<[url:=s1]> m)) as [[m2 ev2] r].
    destruct IH as [Hm [Hal Hr]].
    pose proof (div_succ thr (count s) Hthr) as Hds. fold na in Hds.
    pose proof (Z.div_le_mono (count s + 1) (count s + 1 + Z.of_nat (length os)) thr
                  ltac:(lia) ltac:(lia)) as Hmono.
    replace (count s + Z.of_nat (length (o :: os))) with (count s + 1 + Z.of_nat (length os))
      by (cbn [length]; lia).
    unfold s1 in Hm, Hal. cbn [count alerted] in Hm, Hal.
    split; [|split; [|exact Hr]].
    + rewrite Hm, insert_insert_eq. do 2 f_equal.
      destruct na, (alerted s); cbn [orb]; try reflexivity;
        repeat match goal with |- context [?a <? ?b] => destruct (Z.ltb_spec a b) end;
        try reflexivity; exfalso; lia.
    + rewrite alerts_app, Ha, Hal. destruct na; cbn [app].
      * replace (Z.to_nat ((count s + 1 + Z.of_nat (length os)) / thr - count s / thr))
          with (S (Z.to_nat ((count s + 1 + Z.of_nat (length os)) / thr - (count s + 1) / thr)))
          by lia.
        reflexivity.
      * rewrite Hds, Z.add_0_r. reflexivity.
Qed.

Lemma check_seq_failures_witness :
  (1 <= 3 /\
   ({[ "http://a.test"%string := mk_url_state 2 false ]} : gmap string url_state)
     !! "http://a.test"%string = Some (mk_url_state 2 false) /\
   Forall (fun o => failing 5000000 o = true)
     [Response 500 1000; Raised "timeout"; Response 200 9000000; Response 404 1000]) /\
  let c := count (mk_url_state 2 false) in
  let k := Z.of_nat (length [Response 500 1000; Raised "timeout"; Response 200 9000000; Response 404 1000]) in
  let '(m', evs, r) :=
    check_seq 3 5000000 "http://a.test"
      [Response 500 1000; Raised "timeout"; Response 200 9000000; Response 404 1000]
      {[ "http://a.test"%string := mk_url_state 2 false ]} in
  m' = <[ "http://a.test"%string := mk_url_state (c + k)
          (alerted (mk_url_state 2 false) || (c / 3 <? (c + k) / 3)) ]>
        ({[ "http://a.test"%string := mk_url_state 2 false ]} : gmap string url_state) /\
  alerts evs = repeat (Alert UrlAlert "warning" "site") (Z.to_nat ((c + k) / 3 - c / 3)) /\
  r = None.
Proof.
  split; [split; [lia | split; [vm_compute; reflexivity | repeat constructor]]|].
  refine (check_seq_failures 3 5000000 "http://a.test"
            [Response 500 1000; Raised "timeout"; Response 200 9000000; Response 404 1000]
            {[ "http://a.test"%string := mk_url_state 2 false ]} (mk_url_state 2 false) _ _ _).
  - lia.
  - vm_compute. reflexivity.
  - repeat constructor.
Defined.

(** X13: a check of a URL missing from [url_health] raises [KeyError] out
    of [check_health] (the exception handler fails on the same lookup),
    whatever the request gives; it changes no state and sends nothing. *)
Theorem check_health_unknown_url (thr timeout : Z) (url : string) (o : outcome)
    (m : gmap string url_state) :
  m !! url = None -> check_health thr timeout url o m = (m, [], Some KeyError).
Proof.
  intros H. unfold check_health, except_path.
  assert (Hf : fail_update thr url m = (m, [], inl KeyError))
    by (unfold fail_update; rewrite H; reflexivity).
  destruct o as [sc rt|err]; [destruct (negb (sc =? 200) || (timeout <? rt))|];
    rewrite ?Hf, ?H; reflexivity.
Qed.

Lemma check_health_unknown_url_witness :
  (∅ : gmap string url_state) !! "http://b.test"%string = None /\
  check_health 3 5000000 "http://b.test" (Response 200 1000) ∅ = (∅, [], Some KeyError).
Proof.
  split; [reflexivity|].
  apply check_health_unknown_url. reflexivity.
Defined.

End CheckSequenceProofs.

Module PollLoopProofs.
Import PollLoop.

Lemma backoff_range (k : Z) : 1 <= k -> 10 <= backoff_time k <= 300.
Proof.
  intros Hk. unfold backoff_time.
  pose proof (Z.pow_le_mono_r 2 0 (k - 1) ltac:(lia) ltac:(lia)) as H.
  change (2 ^ 0) with 1 in H. lia.
Qed.

(** X14: starting from a non-negative retry count, every sleep of the
    monitoring loop is either [monitor_interval] or a back-off between 10
    and 300 seconds; the back-off of the [k]-th consecutive failure is
    capped at 300 exactly from [k = 6] on. *)
Theorem monitor_loop_sleeps (interval retry : Z) (ins : list loop_input) :
  0 <= retry ->
  Forall (fun t => t = interval \/ 10 <= t <= 300) (monitor_loop interval retry ins) /\
  (forall k, 1 <= k -> backoff_time k = 300 <-> 6 <= k).
Proof.
  intros Hr. split.
  - revert retry Hr. induction ins as [|[[| |]|] rest IH]; intros retry Hr; simpl.
    + constructor.
    + constructor; [by left | apply IH; lia].
    + constructor; [by left | by apply IH].
    + constructor; [right; apply backoff_range; lia | apply IH; lia].
    + constructor.
  - intros k Hk. unfold backoff_time. split.
    + intros H. destruct (Z_le_gt_dec 6 k) as [|Hlt]; [done|].
      assert (k = 1 \/ k = 2 \/ k = 3 \/ k = 4 \/ k = 5) as Hc by lia.
      destruct Hc as [-> | [-> | [-> | [-> | -> ] ] ] ]; vm_compute in H; lia.
    + intros H6. pose proof (Z.pow_le_mono_r 2 5 (k - 1) ltac:(lia) ltac:(lia)) as H.
      change (2 ^ 5) with 32 in H. lia.
Qed.

Lemma monitor_loop_sleeps_witness :
  0 <= 0 /\
  Forall (fun t => t = 60 \/ 10 <= t <= 300)
    (monitor_loop 60 0 [Cycle CycleRaised; Cycle CycleRaised; Cycle CycleCompleted; Cycle CycleNoTargets]) /\
  (forall k, 1 <= k -> backoff_time k = 300 <-> 6 <= k).
Proof.
  split; [lia|].
  apply (monitor_loop_sleeps 60 0
           [Cycle CycleRaised; Cycle CycleRaised; Cycle CycleCompleted; Cycle CycleNoTargets]).
  lia.
Defined.

End PollLoopProofs.

Module WatchdogStateProofs.
Import DateTime Watchdog SerialisationProofs WatchdogState.

Lemma from_dict_record_ok (now : datetime) (i : ProcessInfo) :
  record_ok i = true -> from_dict now (to_dict i) = Some i.
Proof.
  unfold record_ok. destruct (last_check_time i) as [d1|] eqn:H1; [|done].
  destruct (last_start_time i) as [d2|] eqn:H2; [|done].
  intros Hv. apply andb_true_iff in Hv as [Hv1 Hv2].
  assert (Hlc : time_field (to_dict i) "last_check_time" = Some (Some d1)).
  { apply time_field_iso; [done|]. unfold to_dict. rewrite H1. reflexivity. }
  assert (Hls : time_field (to_dict i) "last_start_time" = Some (Some d2)).
  { apply time_field_iso; [done|]. unfold to_dict. rewrite H2. reflexivity. }
  unfold from_dict. rewrite Hlc, Hls.
  destruct i as [g p s n lc ls wr na]; simpl in H1, H2; subst.
  destruct p; reflexivity.
Qed.

Lemma load_items_ok (now : datetime) (l : list (string * ProcessInfo)) (m : gmap string ProcessInfo) :
  Forall (fun gi => record_ok gi.2 = true) l ->
  load_items now (map (fun gi => (gi.1, to_dict gi.2)) l) m =
    foldl (fun m gi => <[gi.1 := gi.2]> m) m l.
Proof.
  revert m. induction l as [|[g i] l IH]; intros m Hl; [done|].
  inversion Hl as [|? ? Hi Hl']; subst. simpl. rewrite from_dict_record_ok by done.
  by apply IH.
Qed.

Lemma foldl_insert_union (l : list (string * ProcessInfo)) (m : gmap string ProcessInfo) :
  NoDup l.*1 -> foldl (fun m gi => <[gi.1 := gi.2]> m) m l = list_to_map l ∪ m.
Proof.
  revert m. induction l as [|[k v] l IH]; intros m Hnd; simpl.
  - by rewrite map_empty_union.
  - apply NoDup_cons in Hnd as [Hk Hnd]. rewrite IH by done.
    rewrite <- insert_union_l, <- insert_union_r; [done|].
    by apply not_elem_of_list_to_map_1.
Qed.

(** X15: the watchdog state file round-trips: loading what [save_state]
    wrote for records whose two timestamps are set (to valid datetimes)
    gives back the same [processes] map. *)
Theorem save_load_state (now : datetime) (procs : gmap string ProcessInfo) :
  map_Forall (fun _ i => record_ok i = true) procs ->
  load_state now (save_state procs) = procs.
Proof.
  intros Hok. unfold load_state, save_state.
  rewrite load_items_ok.
  - rewrite foldl_insert_union by apply NoDup_fst_map_to_list.
    by rewrite map_union_empty, list_to_map_to_list.
  - apply map_Forall_to_list in Hok. eapply Forall_impl; [exact Hok|]. by intros [g i].
Qed.

Lemma save_load_state_witness :
  let d := mk_datetime 2024 5 1 12 0 0 0 in
  let procs : gmap string ProcessInfo :=
    {[ "group1" := mk_ProcessInfo "group1" (Some 4242) ST_RUNNING 3 (Some d) (Some d) true false ]} in
  map_Forall (fun _ i => record_ok i = true) procs /\
  load_state (mk_datetime 2024 5 1 12 0 10 0) (save_state procs) = procs.
Proof.
  intros d procs. split.
  - apply map_Forall_singleton. vm_compute. reflexivity.
  - apply save_load_state. apply map_Forall_singleton. vm_compute. reflexivity.
Defined.




End WatchdogStateProofs.

Module SupervisionFrameProofs.
Import DateTime Watchdog Supervision SupervisionProofs CheckAll.

(** Two watchdog states agree on group [g]: same record, same PID file. *)
Definition same_at (g : string) (st1 st2 : wstate) : Prop :=
  processes st1 !! g = processes st2 !! g /\ pid_files st1 !! g = pid_files st2 !! g.

Lemma same_at_refl g st : same_at g st st.
Proof. done. Qed.

Lemma same_at_sym g st1 st2 : same_at g st1 st2 -> same_at g st2 st1.
Proof. by intros [H1 H2]. Qed.

Lemma same_at_trans g st1 st2 st3 : same_at g st1 st2 -> same_at g st2 st3 -> same_at g st1 st3.
Proof. intros [H1 H2] [H3 H4]. split; congruence. Qed.

Lemma put_other g g' i st : g' <> g -> same_at g' (put g i st) st.
Proof. intros Hne. split; [apply lookup_insert_ne; congruence | done]. Qed.

Lemma put_same g i st1 st2 : same_at g st1 st2 -> same_at g (put g i st1) (put g i st2).
Proof. intros [_ H2]. split; [cbn; by rewrite !lookup_insert_eq | exact H2]. Qed.

Lemma check_process_other env g g' st : g' <> g -> same_at g' (check_process env g st).1.1 st.
Proof.
  intros Hne. unfold check_process, remove_pid_file, put, same_at.
  repeat (simpl; case_match); simplify_eq/=;
    rewrite ?lookup_insert_ne, ?lookup_delete_ne by congruence; auto.
Qed.

Lemma restart_process_other env g g' st : g' <> g -> same_at g' (restart_process env g st).1.1 st.
Proof.
  intros Hne. unfold restart_process, put, same_at.
  repeat (simpl; case_match); simplify_eq/=;
    rewrite ?lookup_insert_ne by congruence; auto.
Qed.

Lemma restart_process_events env g st :
  Forall (fun e => e = SpawnMonitor g) (restart_process env g st).1.2.
Proof.
  unfold restart_process. repeat (simpl; case_match); simplify_eq/=; repeat constructor.
Qed.

Lemma check_process_local env g st1 st2 :
  same_at g st1 st2 ->
  same_at g (check_process env g st1).1.1 (check_process env g st2).1.1 /\
  (check_process env g st1).1.2 = (check_process env g st2).1.2 /\
  (check_process env g st1).2 = (check_process env g st2).2.
Proof.
  intros [H1 H2]. unfold check_process, load_pid, current_record, remove_pid_file, put, same_at.
  rewrite H1, H2.
  repeat (simpl; case_match); simplify_eq/=;
    rewrite ?lookup_insert_eq, ?lookup_delete_eq; repeat split; congruence.
Qed.

Lemma restart_process_local env g st1 st2 :
  same_at g st1 st2 ->
  same_at g (restart_process env g st1).1.1 (restart_process env g st2).1.1 /\
  (restart_process env g st1).1.2 = (restart_process env g st2).1.2 /\
  (restart_process env g st1).2 = (restart_process env g st2).2.
Proof.
  intros [H1 H2]. unfold restart_process, put, same_at.
  repeat (simpl; rewrite ?lookup_insert_eq, ?H1; case_match); simplify_eq/=;
    rewrite ?lookup_insert_eq; repeat split; congruence.
Qed.

Lemma check_group_other max_restarts env g g' st :
  g' <> g -> same_at g' (check_group max_restarts env g st).1 st.
Proof.
  intros Hne. unfold check_group.
  pose proof (check_process_other env g g' st Hne) as F1.
  destruct (check_process env g st) as [[st1 ev1] b]. cbn [fst] in F1. cbv beta iota.
  destruct b; [exact F1|].
  destruct (processes st1 !! g) as [pi|]; [|exact F1].
  destruct (String.eqb (status pi) ST_MANUAL); [exact F1|].
  destruct (max_restarts <=? restart_count pi).
  { eapply same_at_trans; [apply put_other; exact Hne | exact F1]. }
  destruct (need_alert pi); [|exact F1].
  pose proof (restart_process_other env g g' st1 Hne) as F2.
  destruct (restart_process env g st1) as [[st2 ev2] rr]. cbn [fst] in F2.
  assert (F : same_at g' st2 st) by (eapply same_at_trans; eauto).
  repeat case_match; exact F.
Qed.

Lemma check_group_events max_restarts env g st :
  Forall (fun e => wevent_group e = g) (check_group max_restarts env g st).2.
Proof.
  unfold check_group.
  pose proof (check_process_events env g st) as E1.
  destruct (check_process env g st) as [[st1 ev1] b]. cbn [fst snd] in E1. cbv beta iota.
  assert (G1 : Forall (fun e => wevent_group e = g) ev1)
    by (eapply Forall_impl; [exact E1 | by intros e ->]).
  destruct b; [exact G1|].
  destruct (processes st1 !! g) as [pi|]; [|exact G1].
  destruct (String.eqb (status pi) ST_MANUAL); [exact G1|].
  destruct (max_restarts <=? restart_count pi).
  { apply Forall_app; split; [exact G1 | repeat constructor]. }
  destruct (need_alert pi); [|exact G1].
  pose proof (restart_process_events env g st1) as E2.
  destruct (restart_process env g st1) as [[st2 ev2] rr]. cbn [fst snd] in E2.
  assert (G2 : Forall (fun e => wevent_group e = g) (ev1 ++ ev2)).
  { apply Forall_app; split; [exact G1|]. eapply Forall_impl; [exact E2 | by intros e ->]. }
  repeat case_match; cbn [snd]; try exact G2; apply Forall_app; split; try exact G2; repeat constructor.
Qed.

Lemma check_group_local max_restarts env g st1 st2 :
  same_at g st1 st2 ->
  same_at g (check_group max_restarts env g st1).1 (check_group max_restarts env g st2).1 /\
  (check_group max_restarts env g st1).2 = (check_group max_restarts env g st2).2.
Proof.
  intros H. unfold check_group.
  destruct (check_process_local env g st1 st2 H) as [L1 [L2 L3]].
  destruct (check_process env g st1) as [[a1 e1] b1], (check_process env g st2) as [[a2 e2] b2].
  cbn [fst snd] in L1, L2, L3. subst e2 b2. cbv beta iota.
  destruct b1; [done|].
  pose proof L1 as [P _]. rewrite P.
  destruct (processes a2 !! g) as [pi|]; [|done].
  destruct (String.eqb (status pi) ST_MANUAL); [done|].
  destruct (max_restarts <=? restart_count pi).
  { split; [by apply put_same | done]. }
  destruct (need_alert pi); [|done].
  destruct (restart_process_local env g a1 a2 L1) as [R1 [R2 R3]].
  destruct (restart_process env g a1) as [[c1 f1] r1], (restart_process env g a2) as [[c2 f2] r2].
  cbn [fst snd] in R1, R2, R3. subst f2 r2. cbv beta iota.
  pose proof R1 as [Q _]. rewrite Q.
  repeat case_match; done.
Qed.

Lemma filter_about_all g evs :
  Forall (fun e => wevent_group e = g) evs -> List.filter (about g) evs = evs.
Proof.
  induction 1 as [|e evs He _ IH]; [done|]. simpl. unfold about at 1.
  rewrite He, String.eqb_refl, IH. done.
Qed.

Lemma filter_about_none g evs :
  Forall (fun e => wevent_group e <> g) evs -> List.filter (about g) evs = [].
Proof.
  induction 1 as [|e evs He _ IH]; [done|]. simpl. unfold about at 1.
  rewrite (proj2 (String.eqb_neq _ _) He). exact IH.
Qed.

Lemma check_all_other max_restarts passes st g :
  g ∉ passes.*1 ->
  same_at g (check_all_processes max_restarts passes st).1 st /\
  Forall (fun e => wevent_group e <> g) (check_all_processes max_restarts passes st).2.
Proof.
  revert st. induction passes as [|[g0 env0] rest IH]; intros st Hg; [done|].
  cbn [fmap list_fmap fst] in Hg. apply not_elem_of_cons in Hg as [Hg0 Hg].
  cbn [check_all_processes].
  pose proof (check_group_other max_restarts env0 g0 g st Hg0) as F1.
  pose proof (check_group_events max_restarts env0 g0 st) as E1.
  destruct (check_group max_restarts env0 g0 st) as [st1 ev1]. cbn [fst snd] in F1, E1.
  specialize (IH st1 Hg).
  destruct (check_all_processes max_restarts rest st1) as [st2 ev2]. destruct IH as [F2 E2].
  split; [eapply same_at_trans; eauto|].
  apply Forall_app; split; [|exact E2].
  eapply Forall_impl; [exact E1|]. intros e ->. congruence.
Qed.

End SupervisionFrameProofs.

Module SupervisionExtraProofs.
Import DateTime Watchdog Supervision SupervisionProofs CheckAll SupervisionFrameProofs.

Lemma observe_pid_pid (now : datetime) (p : option Z) (i : ProcessInfo) :
  pid (observe_pid now p i) = p /\ last_check_time (observe_pid now p i) = Some now.
Proof. unfold observe_pid. destruct p, (pid i); try case_match; done. Qed.

(** X17: when the PID file names a live process whose command line
    mentions the group's [monitor_<group>.py], the pass emits nothing,
    leaves the PID files alone, records the group as running with that PID,
    and, if the previous status was one of the stopped statuses, resets
    [restart_count] to 0 and [need_alert] to true. *)
Theorem own_monitor_running (max_restarts : Z) (env : pass_env) (g : string) (st : wstate)
    (p : Z) (cmdline : list string) :
  load_pid (pid_files st) g = Some p -> ptable env p = Live cmdline ->
  is_own_monitor g cmdline = true ->
  let i0 := current_record env g st (Some p) in
  let '(st', ev) := check_group max_restarts env g st in
  ev = [] /\ pid_files st' = pid_files st /\
  status <$> (processes st' !! g) = Some ST_RUNNING /\
  pid <$> (processes st' !! g) = Some (Some p) /\
  (stopped_like (status i0) = true ->
   restart_count <$> (processes st' !! g) = Some 0 /\
   need_alert <$> (processes st' !! g) = Some true).
Proof.
  intros Hl Hp Ho i0. unfold check_group, check_process. rewrite Hl, Hp, Ho. cbn [negb].
  fold i0.
  destruct (observe_pid_status (now_check env) (Some p) i0) as [Hst _].
  destruct (observe_pid_pid (now_check env) (Some p) i0) as [Hpid _].
  set (info := observe_pid (now_check env) (Some p) i0) in *.
  destruct (String.eqb (status info) ST_STOPPED || String.eqb (status info) ST_MAX_RESTARTS
            || String.eqb (status info) ST_MANUAL) eqn:E;
    cbv beta iota; cbn [put processes pid_files]; rewrite lookup_insert_eq; cbn [fmap option_fmap option_map];
    (split; [done|]); (split; [done|]); (split; [done|]).
  - split; [cbn [pid set_status set_need_alert set_restart_count]; by rewrite Hpid|]. intros _. done.
  - split; [cbn [pid set_status]; by rewrite Hpid|]. intros Hs. unfold stopped_like in Hs. rewrite <- Hst in Hs.
    congruence.
Qed.

Lemma own_monitor_running_witness :
  let env := mk_pass_env SupervisionScenarios.t1 SupervisionScenarios.t1
               (fun _ => Live ["python3"; "bin/monitor_group1.py"]) SpawnError in
  let st := SupervisionScenarios.state_of
              (SupervisionScenarios.record ST_MAX_RESTARTS 5 false) (Some 4242) in
  (load_pid (pid_files st) "group1" = Some 4242 /\
   ptable env 4242 = Live ["python3"; "bin/monitor_group1.py"] /\
   is_own_monitor "group1" ["python3"; "bin/monitor_group1.py"] = true) /\
  let i0 := current_record env "group1" st (Some 4242) in
  let '(st', ev) := check_group 5 env "group1" st in
  ev = [] /\ pid_files st' = pid_files st /\
  status <$> (processes st' !! "group1") = Some ST_RUNNING /\
  pid <$> (processes st' !! "group1") = Some (Some 4242) /\
  (stopped_like (status i0) = true ->
   restart_count <$> (processes st' !! "group1") = Some 0 /\
   need_alert <$> (processes st' !! "group1") = Some true).
Proof.
  intros env st.
  split; [split; [vm_compute; reflexivity | split; [reflexivity | vm_compute; reflexivity]]|].
  apply (own_monitor_running 5 env "group1" st 4242 ["python3"; "bin/monitor_group1.py"]).
  - vm_compute. reflexivity.
  - reflexivity.
  - vm_compute. reflexivity.
Defined.

(** X18: the pass over one group never changes another group's record or
    PID file, and every event it emits concerns that group. *)
Theorem check_group_frame (max_restarts : Z) (env : pass_env) (g g' : string) (st : wstate) :
  g' <> g ->
  let '(st', ev) := check_group max_restarts env g st in
  processes st' !! g' = processes st !! g' /\ pid_files st' !! g' = pid_files st !! g' /\
  Forall (fun e => wevent_group e = g) ev.
Proof.
  intros Hne.
  pose proof (check_group_other max_restarts env g g' st Hne) as [F1 F2].
  pose proof (check_group_events max_restarts env g st) as E.
  destruct (check_group max_restarts env g st) as [st' ev]. auto.
Qed.

Lemma check_group_frame_witness :
  let env := SupervisionScenarios.env_at SupervisionScenarios.t1 (Spawned true) in
  let st := mk_wstate
              {[ "group1" := SupervisionScenarios.record ST_STOPPED 0 true;
                 "group2" := SupervisionScenarios.record ST_RUNNING 1 true ]}
              {[ "group1" := Some 4242; "group2" := Some 4343 ]} in
  "group2" <> "group1" /\
  let '(st', ev) := check_group 5 env "group1" st in
  processes st' !! "group2" = processes st !! "group2" /\
  pid_files st' !! "group2" = pid_files st !! "group2" /\
  Forall (fun e => wevent_group e = "group1") ev.
Proof.
  intros env st. split; [discriminate|].
  apply check_group_frame. discriminate.
Defined.

(** X19: in [check_all_processes] over distinct groups, each group ends
    with the record and PID file, and emits the events, that a pass over
    that group alone would give from the initial state: the groups do not
    interact. *)
Theorem check_all_processes_per_group (max_restarts : Z) (passes : list (string * pass_env))
    (st : wstate) (g : string) (env : pass_env) :
  NoDup passes.*1 -> (g, env) ∈ passes ->
  let '(st', evs) := check_all_processes max_restarts passes st in
  let '(stg, evg) := check_group max_restarts env g st in
  processes st' !! g = processes stg !! g /\ pid_files st' !! g = pid_files stg !! g /\
  List.filter (about g) evs = evg.
Proof.
  revert st. induction passes as [|[g0 env0] rest IH]; intros st Hnd Hin.
  { by apply not_elem_of_nil in Hin. }
  cbn [fmap list_fmap fst] in Hnd. apply NoDup_cons in Hnd as [Hg0 Hnd].
  cbn [check_all_processes].
  pose proof (check_group_events max_restarts env0 g0 st) as E1.
  destruct (check_group max_restarts env0 g0 st) as [st1 ev1] eqn:Hg1. cbn [snd] in E1.
  apply elem_of_cons in Hin as [Heq | Hin].
  - injection Heq as <- <-. rewrite Hg1.
    destruct (check_all_other max_restarts rest st1 g Hg0) as [[F1 F2] E2].
    destruct (check_all_processes max_restarts rest st1) as [st2 ev2]. cbn [fst snd] in F1, F2, E2.
    split; [done|]. split; [done|].
    rewrite List.filter_app, filter_about_all, filter_about_none by done. apply app_nil_r.
  - assert (Hne : g <> g0).
    { intros ->. apply Hg0. exact (list_elem_of_fmap_2 fst rest (g0, env) Hin). }
    specialize (IH st1 Hnd Hin).
    pose proof (check_group_other max_restarts env0 g0 g st Hne) as F. rewrite Hg1 in F.
    cbn [fst] in F.
    destruct (check_group_local max_restarts env g st1 st F) as [[L1 L2] L3].
    destruct (check_all_processes max_restarts rest st1) as [st2 ev2].
    destruct (check_group max_restarts env g st1) as [a1 e1].
    destruct (check_group max_restarts env g st) as [a2 e2]. cbn [fst snd] in L1, L2, L3.
    destruct IH as [I1 [I2 I3]].
    split; [congruence|]. split; [congruence|].
    rewrite List.filter_app, filter_about_none, I3; [done|].
    eapply Forall_impl; [exact E1|]. intros e ->. congruence.
Qed.

Lemma check_all_processes_per_group_witness :
  let env1 := SupervisionScenarios.env_at SupervisionScenarios.t1 (Spawned true) in
  let env2 := SupervisionScenarios.env_at SupervisionScenarios.t2 SpawnError in
  let st := mk_wstate
              {[ "group1" := SupervisionScenarios.record ST_STOPPED 0 true;
                 "group2" := SupervisionScenarios.record ST_RUNNING 1 true ]}
              {[ "group1" := Some 4242; "group2" := Some 4343 ]} in
  (NoDup ([("group1", env1); ("group2", env2)].*1) /\ ("group2", env2) ∈ [("group1", env1); ("group2", env2)]) /\
  let '(st', evs) := check_all_processes 5 [("group1", env1); ("group2", env2)] st in
  let '(stg, evg) := check_group 5 env2 "group2" st in
  processes st' !! "group2" = processes stg !! "group2" /\
  pid_files st' !! "group2" = pid_files stg !! "group2" /\
  List.filter (about "group2") evs = evg.
Proof.
  intros env1 env2 st.
  assert (Hnd : NoDup ([("group1", env1); ("group2", env2)].*1))
    by (cbn; apply NoDup_cons_2; [rewrite list_elem_of_singleton; discriminate | apply NoDup_singleton]).
  assert (Hin : ("group2", env2) ∈ [("group1", env1); ("group2", env2)])
    by (apply elem_of_cons; right; apply list_elem_of_singleton; reflexivity).
  split; [split; [exact Hnd | exact Hin]|].
  exact (check_all_processes_per_group 5 [("group1", env1); ("group2", env2)] st "group2" env2 Hnd Hin).
Defined.

(** The liveness check always leaves a record for the group, stamped with
    the time of the check. *)
Lemma check_process_checked (env : pass_env) (g : string) (st : wstate) :
  exists i, processes (check_process env g st).1.1 !! g = Some i /\
            last_check_time i = Some (now_check env).
Proof.
  unfold check_process, remove_pid_file.
  pose proof (observe_pid_pid (now_check env)) as Ho.
  repeat (simpl; case_match); simplify_eq/=; rewrite lookup_insert_eq; eexists; split; try done;
    cbn; apply Ho.
Qed.

(** X20: when the restart happens less than 60 seconds after the liveness
    check of the same pass, the pass never sends the "已自动重启" alert,
    and a restart that spawned the monitor leaves [need_alert] false. *)
Theorem quick_restart_not_reported (max_restarts : Z) (env : pass_env) (g : string) (st : wstate) :
  less_than_60s_ago (now_restart env) (now_check env) = true ->
  let '(st', ev) := check_group max_restarts env g st in
  (ProcessAlert g ST_RESTARTED "warning" "process" ∉ ev) /\
  (SpawnMonitor g ∈ ev -> spawn env <> SpawnError ->
   need_alert <$> (processes st' !! g) = Some false).
Proof.
  intros Hq. unfold check_group.
  pose proof (check_process_events env g st) as E1.
  destruct (check_process_checked env g st) as [i [Hi Hlc]].
  destruct (check_process env g st) as [[st1 ev1] b]. cbn [fst snd] in E1, Hi. cbv beta iota.
  assert (N1 : forall e, e ∈ ev1 -> e = RemovePidFile g)
    by (intros e He; rewrite Forall_forall in E1; apply E1, He).
  assert (Hno : forall e, e ∈ ev1 -> e <> RemovePidFile g -> False) by (intros e He Hn; exact (Hn (N1 e He))).
  destruct b.
  { split; [intros H | intros H _; exfalso]; apply (Hno _ H); discriminate. }
  rewrite Hi.
  destruct (String.eqb (status i) ST_MANUAL).
  { split; [intros H | intros H _; exfalso]; apply (Hno _ H); discriminate. }
  destruct (max_restarts <=? restart_count i).
  { split; [intros H | intros H _; exfalso]; apply elem_of_app in H as [H|H];
      try (apply (Hno _ H); discriminate); apply list_elem_of_singleton in H; discriminate. }
  destruct (need_alert i).
  2:{ split; [intros H | intros H _; exfalso]; apply (Hno _ H); discriminate. }
  unfold restart_process. rewrite Hi, Hlc, Hq. cbn [negb].
  cbn [put processes]. rewrite lookup_insert_eq.
  destruct (spawn env) as [|alive].
  - cbv beta iota. cbn [processes put]. rewrite lookup_insert_eq. cbn [andb negb].
    split.
    + intros H. apply elem_of_app in H as [H|H]; [apply elem_of_app in H as [H|H]|].
      * apply (Hno _ H); discriminate.
      * apply list_elem_of_singleton in H. discriminate.
      * apply list_elem_of_singleton in H. discriminate.
    + intros _ Hs. done.
  - cbv beta iota. cbn [processes put]. rewrite !lookup_insert_eq. cbn [andb need_alert set_need_alert].
    rewrite andb_false_r.
    destruct alive; cbn [negb].
    + split.
      * intros H. apply elem_of_app in H as [H|H]; [apply (Hno _ H); discriminate|].
        apply list_elem_of_singleton in H. discriminate.
      * intros _ _. cbn. by rewrite lookup_insert_eq.
    + split.
      * intros H. apply elem_of_app in H as [H|H]; [apply elem_of_app in H as [H|H]|].
        -- apply (Hno _ H); discriminate.
        -- apply list_elem_of_singleton in H. discriminate.
        -- apply list_elem_of_singleton in H. discriminate.
      * intros _ _. cbn. by rewrite lookup_insert_eq.
Qed.

Lemma quick_restart_not_reported_witness :
  let env := SupervisionScenarios.env_at SupervisionScenarios.t1 (Spawned true) in
  let st := SupervisionScenarios.state_of (SupervisionScenarios.record ST_STOPPED 1 true) (Some 4242) in
  less_than_60s_ago (now_restart env) (now_check env) = true /\
  let '(st', ev) := check_group 5 env "group1" st in
  (ProcessAlert "group1" ST_RESTARTED "warning" "process" ∉ ev) /\
  (SpawnMonitor "group1" ∈ ev -> spawn env <> SpawnError ->
   need_alert <$> (processes st' !! "group1") = Some false).
Proof.
  intros env st. split; [vm_compute; reflexivity|].
  apply quick_restart_not_reported. vm_compute. reflexivity.
Defined.

(** One pass over a dead group whose record has [need_alert = False]. *)
Lemma check_group_sticky (max_restarts : Z) (env : pass_env) (g : string) (st : wstate)
    (i : ProcessInfo) :
  processes st !! g = Some i -> need_alert i = false -> (forall p, stale env g p = true) ->
  List.filter is_spawn (check_group max_restarts env g st).2 = [] /\
  exists i', processes (check_group max_restarts env g st).1 !! g = Some i' /\ need_alert i' = false.
Proof.
  intros Hi Hna Hs.
  assert (Hcr : forall p, current_record env g st p = i)
    by (intros p; unfold current_record; by rewrite Hi).
  assert (Hcp : exists i1, check_process env g st =
                  (put g i1 (remove_pid_file g st).1, (remove_pid_file g st).2, false) /\
                  need_alert i1 = false).
  { destruct (load_pid (pid_files st) g) as [p|] eqn:Hl.
    - rewrite (check_process_stale env g st p Hl (Hs p)). eexists; split; [reflexivity|].
      cbn [need_alert set_status]. rewrite Hcr. by rewrite (proj2 (observe_pid_status _ _ _)).
    - rewrite (check_process_no_pid env g st Hl). eexists; split; [reflexivity|].
      case_match; [done|]. cbn [need_alert set_status]. rewrite Hcr.
      by rewrite (proj2 (observe_pid_status _ _ _)). }
  destruct Hcp as [i1 [Hc Hna1]].
  pose proof (check_process_events env g st) as E1. rewrite Hc in E1. cbn [fst snd] in E1.
  destruct (filter_spawn_removals g _ E1) as [Hs1 _].
  unfold check_group. rewrite Hc. cbv beta iota. cbn [put processes]. rewrite lookup_insert_eq.
  destruct (String.eqb (status i1) ST_MANUAL).
  { split; [exact Hs1|]. exists i1. split; [apply lookup_insert_eq | exact Hna1]. }
  destruct (max_restarts <=? restart_count i1).
  { cbn [fst snd]. split; [rewrite List.filter_app, Hs1; done|].
    exists (set_status ST_MAX_RESTARTS i1). split; [apply lookup_insert_eq | exact Hna1]. }
  rewrite Hna1. split; [exact Hs1|]. exists i1. split; [apply lookup_insert_eq | exact Hna1].
Qed.

(** X21: a group whose record has [need_alert] false and whose PID file
    stays absent or stale is never restarted again by later passes, and
    [need_alert] stays false. *)
Theorem need_alert_false_sticky (max_restarts : Z) (g : string) (envs : list pass_env)
    (st : wstate) (i : ProcessInfo) :
  processes st !! g = Some i -> need_alert i = false ->
  Forall (fun env => forall p, stale env g p = true) envs ->
  let '(st', evs) := run_passes max_restarts g envs st in
  List.filter is_spawn evs = [] /\ need_alert <$> (processes st' !! g) = Some false.
Proof.
  revert st i. induction envs as [|env envs IH]; intros st i Hi Hna Hs.
  - cbn [run_passes]. split; [done|]. rewrite Hi. cbn. by rewrite Hna.
  - inversion Hs as [|? ? Hs0 Hs']; subst.
    cbn [run_passes].
    destruct (check_group_sticky max_restarts env g st i Hi Hna Hs0) as [F [i' [Hi' Hna']]].
    destruct (check_group max_restarts env g st) as [st1 ev1]. cbn [fst snd] in F, Hi'.
    specialize (IH st1 i' Hi' Hna' Hs').
    destruct (run_passes max_restarts g envs st1) as [st2 ev2]. destruct IH as [I1 I2].
    split; [rewrite List.filter_app, F, I1; done | exact I2].
Qed.

Lemma need_alert_false_sticky_witness :
  let envs := [SupervisionScenarios.env_at SupervisionScenarios.t1 (Spawned true);
               SupervisionScenarios.env_at SupervisionScenarios.t2 (Spawned true)] in
  let st := SupervisionScenarios.state_of (SupervisionScenarios.record ST_STOPPED 0 false) (Some 4242) in
  (processes st !! "group1" = Some (SupervisionScenarios.record ST_STOPPED 0 false) /\
   need_alert (SupervisionScenarios.record ST_STOPPED 0 false) = false /\
   Forall (fun env => forall p, stale env "group1" p = true) envs) /\
  let '(st', evs) := run_passes 5 "group1" envs st in
  List.filter is_spawn evs = [] /\ need_alert <$> (processes st' !! "group1") = Some false.
Proof.
  intros envs st.
  assert (Hs : Forall (fun env => forall p, stale env "group1" p = true) envs)
    by (repeat constructor; intros p; reflexivity).
  split; [split; [vm_compute; reflexivity | split; [reflexivity | exact Hs]]|].
  apply (need_alert_false_sticky 5 "group1" envs st (SupervisionScenarios.record ST_STOPPED 0 false)).
  - vm_compute. reflexivity.
  - reflexivity.
  - exact Hs.
Defined.

End SupervisionExtraProofs.
